(** * Opulse: operator registry, expression generation and evaluation

    A shallow embedding of the Python sources under [opulse/] together with
    the properties stated about them.  Python objects are records, Python
    dictionaries are finite maps, exceptions are an explicit outcome, and
    the random source is an explicit tape of draws.

    Layout: Part I holds the embedding (one module per Python class),
    Part II the lemmas and theorems. *)

From Stdlib Require Import ZArith Lia Bool Ascii String.
From stdpp Require Import base option list strings pretty gmap sets sorting.

Local Open Scope string_scope.
Local Open Scope Z_scope.

(* ================================================================== *)
(** * Part I.  The embedding                                           *)
(* ================================================================== *)

(** ** Python values, exceptions and outcomes *)

(** Operator procedures take and return either an [int] or a [str]
    (the sentinel is the string ['NaN']). *)
Inductive pyval : Type :=
| PInt (z : Z)
| PStr (s : string).

Definition NaN : pyval := PStr "NaN".

Definition pyval_eqb (a b : pyval) : bool :=
  match a, b with
  | PInt x, PInt y => Z.eqb x y
  | PStr x, PStr y => String.eqb x y
  | _, _ => false
  end.

(** The exceptions the modelled code can raise. *)
Inductive exn : Type :=
| ValueError (msg : string)
| TypeError (msg : string)
| KeyError (msg : string)
| IndexError (msg : string)
| AttributeError (msg : string)
| AssertionError
| NotImplementedError (msg : string)
| UnboundLocalError (msg : string)
| SystemExit (code : Z).

(** Outcome of a call: a value, a raised exception, or no outcome within
    the fuel given to a loop or recursion. *)
Inductive result (A : Type) : Type :=
| Ok (a : A)
| Raise (e : exn)
| Diverge.
Arguments Ok {A} a.
Arguments Raise {A} e.
Arguments Diverge {A}.

Definition rbind {A B} (r : result A) (k : A -> result B) : result B :=
  match r with
  | Ok a => k a
  | Raise e => Raise e
  | Diverge => Diverge
  end.

(** A compiled operator procedure: a callable over its positional
    arguments.  Calling with the wrong number of arguments is a
    [TypeError] of the procedure itself. *)
Definition pyfunc : Type := list pyval -> result pyval.

(** Stateful code: a state transformer whose state survives an exception,
    as the mutations made before a Python exception do. *)
Definition M (S A : Type) : Type := S -> result A * S.

Definition ret {S A} (a : A) : M S A := fun s => (Ok a, s).
Definition raise {S A} (e : exn) : M S A := fun s => (Raise e, s).
Definition bind {S A B} (m : M S A) (k : A -> M S B) : M S B :=
  fun s => match m s with
           | (Ok a, s') => k a s'
           | (Raise e, s') => (Raise e, s')
           | (Diverge, s') => (Diverge, s')
           end.
Definition get {S} : M S S := fun s => (Ok s, s).
Definition put {S} (s : S) : M S unit := fun _ => (Ok tt, s).
Definition modify {S} (f : S -> S) : M S unit := fun s => (Ok tt, f s).
Definition lift {S A} (r : result A) : M S A := fun s => (r, s).

Declare Scope py_scope.
Delimit Scope py_scope with py.
Notation "'let*' x ':=' m 'in' k" := (bind m (fun x => k))
  (at level 10, x pattern, m at level 100, k at level 200) : py_scope.
Notation "m ';;' k" := (bind m (fun _ => k))
  (at level 100, k at level 200, right associativity) : py_scope.
Notation "'let?' x ':=' r 'in' k" := (rbind r (fun x => k))
  (at level 10, x pattern, r at level 100, k at level 200) : py_scope.
Local Open Scope py_scope.

(** ** Strings: the fragments of [str] and [re] that the sources use *)

(** The class [\d] on the sources the generator writes, which are ASCII:
    the digits 0 to 9. *)
Definition is_digit (c : ascii) : bool :=
  (48 <=? nat_of_ascii c)%nat && (nat_of_ascii c <=? 57)%nat.

(** The longest prefix made of decimal digits. *)
Fixpoint leading_digits (s : string) : string :=
  match s with
  | String c s' => if is_digit c then String c (leading_digits s') else ""
  | EmptyString => ""
  end.

Definition digit_value (c : ascii) : Z := Z.of_nat (nat_of_ascii c) - 48.

(** [int(ds)] for a string of decimal digits. *)
Definition int_of_digits (ds : string) : Z :=
  fold_left (fun acc c => 10 * acc + digit_value c) (list_ascii_of_string ds) 0.

(** [str(n)]. *)
Definition str_of_int (n : Z) : string := pretty n.

Fixpoint strip_prefix (p s : string) : option string :=
  match p, s with
  | EmptyString, _ => Some s
  | String a p', String b s' => if Ascii.eqb a b then strip_prefix p' s' else None
  | String _ _, EmptyString => None
  end.

Fixpoint drop_chars (n : nat) (s : string) : string :=
  match n, s with
  | O, _ => s
  | S k, String _ s' => drop_chars k s'
  | S _, EmptyString => ""
  end.

(** A match of the pattern [pre(\d+)] anchored at the start of [s]:
    the digits of the group and the length of the whole match. *)
Definition match_id (pre s : string) : option (string * nat) :=
  match strip_prefix pre s with
  | Some rest =>
      let ds := leading_digits rest in
      if String.eqb ds "" then None
      else Some (ds, (String.length pre + String.length ds)%nat)
  | None => None
  end.

(** [re.findall(pre + r"(\d+)", s)], scanning left to right over
    non-overlapping matches; [skip] counts the characters of the current
    match that are still to be passed over. *)
Fixpoint findall_ids_go (pre : string) (skip : nat) (s : string) : list string :=
  match s with
  | EmptyString => []
  | String c s' =>
      match skip with
      | S k => findall_ids_go pre k s'
      | O =>
          match match_id pre (String c s') with
          | Some (ds, n) => ds :: findall_ids_go pre (Nat.pred n) s'
          | None => findall_ids_go pre 0 s'
          end
      end
  end.

Definition findall_ids (pre s : string) : list string := findall_ids_go pre 0 s.

(** [re.sub(pre + r"(\d+)", lambda m: repl, s, count=1)]: only the first
    match is replaced, and it is replaced whole. *)
Fixpoint sub_first_id (pre repl s : string) : string :=
  match s with
  | EmptyString => ""
  | String c s' =>
      match match_id pre (String c s') with
      | Some (_, n) => repl ++ drop_chars n (String c s')
      | None => String c (sub_first_id pre repl s')
      end
  end.

(** [re.sub(pat, lambda m: repl, s)] for a pattern without metacharacters:
    every non-overlapping occurrence, left to right. *)
Fixpoint sub_literal_go (pat repl : string) (skip : nat) (s : string) : string :=
  match s with
  | EmptyString => ""
  | String c s' =>
      match skip with
      | S k => sub_literal_go pat repl k s'
      | O =>
          match strip_prefix pat (String c s') with
          | Some _ => repl ++ sub_literal_go pat repl (Nat.pred (String.length pat)) s'
          | None => String c (sub_literal_go pat repl 0 s')
          end
      end
  end.

Definition sub_literal (pat repl s : string) : string := sub_literal_go pat repl 0 s.


(** ** JSON documents

    [json.dumps] renders a dictionary as text and [json.loads] parses the
    text back; both belong to Python's standard library.  A persisted line
    is kept here in parsed form, as the dictionary the two functions
    exchange. *)

#[warnings="-register-all"] Inductive json : Type :=
| JNull
| JBool (b : bool)
| JInt (z : Z)
| JStr (s : string)
| JList (l : list json)
| JDict (d : list (string * json)).

(** First binding of a key in an insertion-ordered dictionary. *)
Fixpoint assoc {A} (k : string) (d : list (string * A)) : option A :=
  match d with
  | [] => None
  | (k', v) :: d' => if String.eqb k k' then Some v else assoc k d'
  end.

Definition of_opt {A} (f : A -> json) (o : option A) : json :=
  match o with Some a => f a | None => JNull end.

Definition as_int (j : json) : result Z :=
  match j with JInt z => Ok z | _ => Raise (TypeError "int expected") end.
Definition as_str (j : json) : result string :=
  match j with JStr s => Ok s | _ => Raise (TypeError "str expected") end.
Definition as_bool (j : json) : result bool :=
  match j with JBool b => Ok b | _ => Raise (TypeError "bool expected") end.
Definition as_opt {A} (f : json -> result A) (j : json) : result (option A) :=
  match j with JNull => Ok None | _ => let? a := f j in Ok (Some a) end.
Fixpoint as_all {A} (f : json -> result A) (l : list json) : result (list A) :=
  match l with
  | [] => Ok []
  | j :: l' => let? a := f j in let? r := as_all f l' in Ok (a :: r)
  end.
Definition as_list {A} (f : json -> result A) (j : json) : result (list A) :=
  match j with JList l => as_all f l | _ => Raise (TypeError "list expected") end.
Fixpoint as_flag_items (d : list (string * json)) : result (list (string * bool)) :=
  match d with
  | [] => Ok []
  | (k, v) :: d' =>
      let? b := as_bool v in let? r := as_flag_items d' in Ok ((k, b) :: r)
  end.
Definition as_flags (j : json) : result (list (string * bool)) :=
  match j with
  | JDict d => as_flag_items d
  | _ => Raise (TypeError "dict expected")
  end.

(** ** operatorplus/operator_info.py *)

Module OperatorInfo.

(** The attributes set by [__init__], in its order.  [compiled_functions]
    is the per-operator cache of compiled procedures. *)
Record t : Type := mk {
  id : Z;
  symbol : string;
  n_ary : Z;
  unary_position : option string;
  is_base : option Z;
  definition : option string;
  definition_type : option string;
  priority : option Z;
  associativity_direction : option string;
  n_order : option Z;
  op_compute_func : option string;
  op_count_func : option string;
  z3_compute_func : option string;
  properties : option (list (string * bool));
  dependencies : option (list Z);
  is_temporary : bool;
  recursive_used_cases : Z;
  is_recursion_enabled : bool;
  compiled_functions : gmap string pyfunc
}.

(** Attribute assignment [o.f = v]. *)
Definition set_id (v : Z) (o : t) : t :=
  mk v (symbol o) (n_ary o) (unary_position o) (is_base o) (definition o) (definition_type o) (priority o) (associativity_direction o) (n_order o) (op_compute_func o) (op_count_func o) (z3_compute_func o) (properties o) (dependencies o) (is_temporary o) (recursive_used_cases o) (is_recursion_enabled o) (compiled_functions o).
Definition set_n_order (v : option Z) (o : t) : t :=
  mk (id o) (symbol o) (n_ary o) (unary_position o) (is_base o) (definition o) (definition_type o) (priority o) (associativity_direction o) v (op_compute_func o) (op_count_func o) (z3_compute_func o) (properties o) (dependencies o) (is_temporary o) (recursive_used_cases o) (is_recursion_enabled o) (compiled_functions o).
Definition set_op_compute_func (v : option string) (o : t) : t :=
  mk (id o) (symbol o) (n_ary o) (unary_position o) (is_base o) (definition o) (definition_type o) (priority o) (associativity_direction o) (n_order o) v (op_count_func o) (z3_compute_func o) (properties o) (dependencies o) (is_temporary o) (recursive_used_cases o) (is_recursion_enabled o) (compiled_functions o).
Definition set_op_count_func (v : option string) (o : t) : t :=
  mk (id o) (symbol o) (n_ary o) (unary_position o) (is_base o) (definition o) (definition_type o) (priority o) (associativity_direction o) (n_order o) (op_compute_func o) v (z3_compute_func o) (properties o) (dependencies o) (is_temporary o) (recursive_used_cases o) (is_recursion_enabled o) (compiled_functions o).
Definition set_dependencies (v : option (list Z)) (o : t) : t :=
  mk (id o) (symbol o) (n_ary o) (unary_position o) (is_base o) (definition o) (definition_type o) (priority o) (associativity_direction o) (n_order o) (op_compute_func o) (op_count_func o) (z3_compute_func o) (properties o) v (is_temporary o) (recursive_used_cases o) (is_recursion_enabled o) (compiled_functions o).
Definition set_is_temporary (v : bool) (o : t) : t :=
  mk (id o) (symbol o) (n_ary o) (unary_position o) (is_base o) (definition o) (definition_type o) (priority o) (associativity_direction o) (n_order o) (op_compute_func o) (op_count_func o) (z3_compute_func o) (properties o) (dependencies o) v (recursive_used_cases o) (is_recursion_enabled o) (compiled_functions o).
Definition set_recursive_used_cases (v : Z) (o : t) : t :=
  mk (id o) (symbol o) (n_ary o) (unary_position o) (is_base o) (definition o) (definition_type o) (priority o) (associativity_direction o) (n_order o) (op_compute_func o) (op_count_func o) (z3_compute_func o) (properties o) (dependencies o) (is_temporary o) v (is_recursion_enabled o) (compiled_functions o).
Definition set_is_recursion_enabled (v : bool) (o : t) : t :=
  mk (id o) (symbol o) (n_ary o) (unary_position o) (is_base o) (definition o) (definition_type o) (priority o) (associativity_direction o) (n_order o) (op_compute_func o) (op_count_func o) (z3_compute_func o) (properties o) (dependencies o) (is_temporary o) (recursive_used_cases o) v (compiled_functions o).
Definition set_compiled_functions (v : gmap string pyfunc) (o : t) : t :=
  mk (id o) (symbol o) (n_ary o) (unary_position o) (is_base o) (definition o) (definition_type o) (priority o) (associativity_direction o) (n_order o) (op_compute_func o) (op_count_func o) (z3_compute_func o) (properties o) (dependencies o) (is_temporary o) (recursive_used_cases o) (is_recursion_enabled o) v.

(** A value of the instance dictionary: JSON data or the cache of
    callables, which has no JSON form. *)
Inductive attr : Type :=
| AJson (j : json)
| ACallables (c : gmap string pyfunc).

Definition flags_json (d : list (string * bool)) : json :=
  JDict (map (fun kv => (kv.1, JBool kv.2)) d).

(** [self.__dict__]. *)
Definition __dict__ (self : t) : list (string * attr) :=
  [ ("id", AJson (JInt (id self)));
    ("symbol", AJson (JStr (symbol self)));
    ("n_ary", AJson (JInt (n_ary self)));
    ("unary_position", AJson (of_opt JStr (unary_position self)));
    ("is_base", AJson (of_opt JInt (is_base self)));
    ("definition", AJson (of_opt JStr (definition self)));
    ("definition_type", AJson (of_opt JStr (definition_type self)));
    ("priority", AJson (of_opt JInt (priority self)));
    ("associativity_direction", AJson (of_opt JStr (associativity_direction self)));
    ("n_order", AJson (of_opt JInt (n_order self)));
    ("op_compute_func", AJson (of_opt JStr (op_compute_func self)));
    ("op_count_func", AJson (of_opt JStr (op_count_func self)));
    ("z3_compute_func", AJson (of_opt JStr (z3_compute_func self)));
    ("properties", AJson (of_opt flags_json (properties self)));
    ("dependencies", AJson (of_opt (fun l => JList (map JInt l)) (dependencies self)));
    ("is_temporary", AJson (JBool (is_temporary self)));
    ("recursive_used_cases", AJson (JInt (recursive_used_cases self)));
    ("is_recursion_enabled", AJson (JBool (is_recursion_enabled self)));
    ("compiled_functions", ACallables (compiled_functions self)) ].

(** [d.pop(key, None)]. *)
Definition pop {A} (key : string) (d : list (string * A)) : list (string * A) :=
  filter (fun kv => negb (String.eqb kv.1 key)) d.

(** [json.dumps(d)]: every value must have a JSON form. *)
Fixpoint json_dumps (d : list (string * attr)) : result (list (string * json)) :=
  match d with
  | [] => Ok []
  | (k, AJson j) :: d' => let? r := json_dumps d' in Ok ((k, j) :: r)
  | (_, ACallables _) :: _ =>
      Raise (TypeError "Object of type function is not JSON serializable")
  end.

Definition to_json (self : t) : result (list (string * json)) :=
  let serializable_dict :=
    fold_left (fun d key => pop key d)
      ["properties"; "is_temporary"; "recursive_used_cases";
       "is_recursion_enabled"; "compiled_functions"]
      (__dict__ self) in
  json_dumps serializable_dict.

(** The keyword parameters of [__init__]. *)
Definition init_params : list string :=
  [ "id"; "symbol"; "n_ary"; "unary_position"; "is_base"; "definition";
    "definition_type"; "priority"; "associativity_direction"; "n_order";
    "op_compute_func"; "op_count_func"; "z3_compute_func"; "properties";
    "dependencies"; "is_temporary"; "recursive_used_cases";
    "is_recursion_enabled" ].

(** Binding of one keyword parameter; [default = None] marks a required
    one.  Python stores whatever value the caller passes; the record is
    typed, so a value of another type is refused here. *)
Definition kwarg {A} (name : string) (conv : json -> result A)
    (default : option A) (data : list (string * json)) : result A :=
  match assoc name data with
  | Some j => conv j
  | None =>
      match default with
      | Some d => Ok d
      | None => Raise (TypeError ("__init__() missing required argument: " ++ name))
      end
  end.

(** The constructor called with the entries of [data] as keyword
    arguments. *)
Definition init (data : list (string * json)) : result t :=
  if negb (forallb (fun kv => existsb (String.eqb kv.1) init_params) data)
  then Raise (TypeError "__init__() got an unexpected keyword argument")
  else
    let? id := kwarg "id" as_int None data in
    let? symbol := kwarg "symbol" as_str None data in
    let? n_ary := kwarg "n_ary" as_int None data in
    let? unary_position := kwarg "unary_position" (as_opt as_str) None data in
    let? is_base := kwarg "is_base" (as_opt as_int) None data in
    let? definition := kwarg "definition" (as_opt as_str) None data in
    let? definition_type := kwarg "definition_type" (as_opt as_str) None data in
    let? priority := kwarg "priority" (as_opt as_int) None data in
    let? associativity_direction :=
      kwarg "associativity_direction" (as_opt as_str) None data in
    let? n_order := kwarg "n_order" (as_opt as_int) None data in
    let? op_compute_func := kwarg "op_compute_func" (as_opt as_str) None data in
    let? op_count_func := kwarg "op_count_func" (as_opt as_str) None data in
    let? z3_compute_func :=
      kwarg "z3_compute_func" (as_opt as_str) (Some None) data in
    let? properties := kwarg "properties" (as_opt as_flags) (Some None) data in
    let? dependencies :=
      kwarg "dependencies" (as_opt (as_list as_int)) (Some None) data in
    let? is_temporary := kwarg "is_temporary" as_bool (Some false) data in
    let? recursive_used_cases :=
      kwarg "recursive_used_cases" as_int (Some 0) data in
    let? is_recursion_enabled :=
      kwarg "is_recursion_enabled" as_bool (Some true) data in
    Ok (mk id symbol n_ary unary_position is_base definition definition_type
           priority associativity_direction n_order op_compute_func
           op_count_func z3_compute_func properties dependencies
           is_temporary recursive_used_cases is_recursion_enabled ∅).

(** [from_json]: [json.loads] then the constructor. *)
Definition from_json (data : list (string * json)) : result t := init data.

(** [_compile_function].  [py_exec code name] stands for running
    [exec(code, ns, ns)] in a namespace holding [available_funcs] and
    reading [name] back from it: [None] when the code raises or does not
    define [name].  A procedure already in [compiled_functions] is
    returned without compiling. *)
Definition _compile_function (py_exec : string -> string -> option pyfunc)
    (self : t) (func_code : option string) (func_name : string) : option pyfunc :=
  match func_code with
  | None => None
  | Some code =>
      if String.eqb code "" then None
      else match compiled_functions self !! func_name with
           | Some f => Some f
           | None => py_exec code func_name
           end
  end.

Definition get_compute_function py_exec (self : t) : option pyfunc :=
  _compile_function py_exec self (op_compute_func self)
    ("op_" ++ str_of_int (id self)).

Definition get_count_function py_exec (self : t) : option pyfunc :=
  _compile_function py_exec self (op_count_func self)
    ("op_count_" ++ str_of_int (id self)).

End OperatorInfo.

Abbreviation OperatorInfo := OperatorInfo.t.

(** A placeholder object, never stored: it makes dereferencing total. *)
Definition unallocated : OperatorInfo :=
  OperatorInfo.mk 0 "" 0 None None None None None None None None None None
    None None false 0 true ∅.

#[export] Instance OperatorInfo_inhabited : Inhabited OperatorInfo :=
  populate unallocated.

(** [for x in xs: body(x)]. *)
Fixpoint for_each {S A} (xs : list A) (body : A -> M S unit) : M S unit :=
  match xs with
  | [] => ret tt
  | x :: xs' => body x ;; for_each xs' body
  end.

(** [[f(x) for x in xs]] where [f] may raise. *)
Fixpoint collect {A B} (f : A -> result B) (xs : list A) : result (list B) :=
  match xs with
  | [] => Ok []
  | x :: xs' => let? y := f x in let? ys := collect f xs' in Ok (y :: ys)
  end.

(** [max(xs)] over values that may be [None]: a single element is returned
    as it is; any comparison with [None] is a [TypeError]. *)
Fixpoint py_max_from (cur : option Z) (xs : list (option Z)) : result (option Z) :=
  match xs with
  | [] => Ok cur
  | x :: xs' =>
      match cur, x with
      | Some c, Some v => py_max_from (Some (if c <? v then v else c)) xs'
      | _, _ => Raise (TypeError "'>' not supported between instances of 'NoneType' and 'int'")
      end
  end.

Definition py_max (xs : list (option Z)) : result (option Z) :=
  match xs with
  | [] => Raise (ValueError "max() arg is an empty sequence")
  | x :: xs' => py_max_from x xs'
  end.

(** [re.sub] applied to an attribute that may be [None]. *)
Definition re_sub_opt (f : string -> string) (src : option string) : result (option string) :=
  match src with
  | Some code => Ok (Some (f code))
  | None => Raise (TypeError "expected string or bytes-like object")
  end.

(** ** operatorplus/operator_manager.py *)

Module OperatorManager.

(** Identity of an [OperatorInfo] object.  The dictionaries of the
    manager hold references to shared objects, so attribute assignments
    made through one of them are seen through the others. *)
Definition ref : Type := positive.

Record t : Type := mk {
  objects : gmap ref OperatorInfo;
  operators : gmap Z ref;
  symbol_to_operators : gmap string (list ref);
  base_operators : gmap Z (list ref);
  available_funcs : gmap string pyfunc
}.
Definition set_objects (v : gmap ref OperatorInfo) (m : t) : t :=
  mk v (operators m) (symbol_to_operators m) (base_operators m) (available_funcs m).
Definition set_operators (v : gmap Z ref) (m : t) : t :=
  mk (objects m) v (symbol_to_operators m) (base_operators m) (available_funcs m).
Definition set_symbol_to_operators (v : gmap string (list ref)) (m : t) : t :=
  mk (objects m) (operators m) v (base_operators m) (available_funcs m).
Definition set_base_operators (v : gmap Z (list ref)) (m : t) : t :=
  mk (objects m) (operators m) (symbol_to_operators m) v (available_funcs m).
Definition set_available_funcs (v : gmap string pyfunc) (m : t) : t :=
  mk (objects m) (operators m) (symbol_to_operators m) (base_operators m) v.

Definition deref (m : t) (r : ref) : OperatorInfo := objects m !!! r.

(** Assignment to attributes of the object behind [r]. *)
Definition update_object (r : ref) (f : OperatorInfo -> OperatorInfo) (m : t) : t :=
  set_objects (<[r := f (deref m r)]> (objects m)) m.

(** [self.operators.values()], as references and as objects.  Python
    iterates a dictionary in insertion order; the finite map fixes some
    order of its own. *)
Definition value_refs (m : t) : list ref := (map_to_list (operators m)).*2.
Definition values (m : t) : list OperatorInfo := deref m <$> value_refs m.
Definition keys (m : t) : list Z := (map_to_list (operators m)).*1.

Definition not_found (op_id : Z) : exn :=
  ValueError ("Operator ID " ++ str_of_int op_id ++ " does not exist.").
Definition already_exists (op_id : Z) : exn :=
  ValueError ("Operator ID " ++ str_of_int op_id ++ " already exists.").

Definition get_next_operator_id (m : t) : Z :=
  match keys m with
  | [] => 1
  | k :: ks => fold_left Z.max ks k + 1
  end.

Definition get_operator_by_id (op_id : Z) : M t ref := fun m =>
  match operators m !! op_id with
  | None => (Raise (not_found op_id), m)
  | Some r => (Ok r, m)
  end.

Definition get_operator_symbols (m : t) : list string :=
  (map_to_list (symbol_to_operators m)).*1.

(** [list(set(map(int, re.findall(r"op_(\d+)", code))))] without
    [op_id]. *)
Definition extract_op_dependencies (op_id : Z) : M t unit :=
  let* r := get_operator_by_id op_id in
  let* m := get in
  match OperatorInfo.op_compute_func (deref m r) with
  | None => raise (TypeError "expected string or bytes-like object")
  | Some code =>
      let op_numbers : gset Z :=
        list_to_set (int_of_digits <$> findall_ids "op_" code) in
      let op_numbers := elements (op_numbers ∖ {[op_id]}) in
      modify (update_object r (OperatorInfo.set_dependencies (Some op_numbers)))
  end.

(** [self.operators[dep_id].n_order]. *)
Definition dependency_order (m : t) (dep_id : Z) : result (option Z) :=
  match operators m !! dep_id with
  | Some rd => Ok (OperatorInfo.n_order (deref m rd))
  | None => Raise (KeyError (str_of_int dep_id))
  end.

Definition calculate_order (operator_id : Z) : M t unit := fun m =>
  match operators m !! operator_id with
  | None => (Ok tt, m)
  | Some r =>
      let operator_info := deref m r in
      match OperatorInfo.dependencies operator_info with
      | Some (dep_id :: deps) =>
          let new_order :=
            let? dependency_orders := collect (dependency_order m) (dep_id :: deps) in
            let? highest := py_max dependency_orders in
            if bool_decide (OperatorInfo.definition_type operator_info
                            = Some "recursive_definition")
            then match highest with
                 | Some v => Ok (Some (v + 1))
                 | None => Raise (TypeError "unsupported operand type(s) for +: 'NoneType' and 'int'")
                 end
            else Ok highest in
          match new_order with
          | Ok o => (Ok tt, update_object r (OperatorInfo.set_n_order o) m)
          | Raise e => (Raise e, m)
          | Diverge => (Diverge, m)
          end
      | _ => (Ok tt, update_object r (OperatorInfo.set_n_order (Some 1)) m)
      end
  end.

(** [d[key] = v] on an insertion-ordered dictionary. *)
Fixpoint dict_set {A} (key : string) (v : A) (d : list (string * A)) : list (string * A) :=
  match d with
  | [] => [(key, v)]
  | (k, x) :: d' =>
      if String.eqb key k then (k, v) :: d' else (k, x) :: dict_set key v d'
  end.

(** [l.remove(x)]: the first occurrence goes; [None] when there is none
    (Python raises [ValueError]). *)
Fixpoint list_remove_first (x : ref) (l : list ref) : option (list ref) :=
  match l with
  | [] => None
  | y :: l' =>
      if bool_decide (x = y) then Some l'
      else match list_remove_first x l' with
           | Some r => Some (y :: r)
           | None => None
           end
  end.

(** [self.symbol_to_operators[sym].append(r)], likewise for bases. *)
Definition append_at `{Countable K} (k : K) (r : ref) (d : gmap K (list ref)) : gmap K (list ref) :=
  <[k := (default [] (d !! k) ++ [r])%list]> d.

Definition add_operator (operator_data : list (string * json)) : M t ref := fun m =>
  let assigned :=
    match assoc "id" operator_data with
    | None | Some JNull =>
        let new_id := fold_left Z.max (keys m) 0 + 1 in
        Ok (dict_set "id" (JInt new_id) operator_data)
    | Some (JInt new_id) =>
        if bool_decide (is_Some (operators m !! new_id))
        then Raise (already_exists new_id)
        else Ok operator_data
    | Some _ => Ok operator_data
    end in
  match assigned with
  | Ok operator_data =>
      let operator_data := dict_set "n_order" JNull operator_data in
      match OperatorInfo.init operator_data with
      | Ok new_operator =>
          let r := fresh (dom (objects m)) in
          let m := set_objects (<[r := new_operator]> (objects m)) m in
          let m := set_operators (<[OperatorInfo.id new_operator := r]> (operators m)) m in
          let m := set_symbol_to_operators
                     (append_at (OperatorInfo.symbol new_operator) r
                                (symbol_to_operators m)) m in
          let m := match OperatorInfo.is_base new_operator with
                   | Some b => set_base_operators (append_at b r (base_operators m)) m
                   | None => m
                   end in
          (Ok r, m)
      | Raise e => (Raise e, m)
      | Diverge => (Diverge, m)
      end
  | Raise e => (Raise e, m)
  | Diverge => (Diverge, m)
  end.

Definition remove_operator (op_id : Z) : M t unit := fun m =>
  match operators m !! op_id with
  | None => (Raise (not_found op_id), m)
  | Some r =>
      let operator := deref m r in
      let m := set_operators (delete op_id (operators m)) m in
      let name := str_of_int (OperatorInfo.id operator) in
      let m := set_available_funcs (delete ("op_" ++ name) (available_funcs m)) m in
      let m := set_available_funcs (delete ("op_count_" ++ name) (available_funcs m)) m in
      match symbol_to_operators m !! OperatorInfo.symbol operator with
      | Some l =>
          match list_remove_first r l with
          | Some l' =>
              (Ok tt, set_symbol_to_operators
                        (<[OperatorInfo.symbol operator := l']> (symbol_to_operators m)) m)
          | None => (Raise (ValueError "list.remove(x): x not in list"), m)
          end
      | None => (Ok tt, m)
      end
  end.

(** The recursive search; [fuel] bounds the depth of the recursion and
    [ops] is [self.operators.values()].  The set is passed by reference
    in the source, here it is threaded through. *)
Fixpoint _find_all_dependent_operator_ids (fuel : nat) (ops : list OperatorInfo)
    (op_id : Z) (to_delete_ids : gset Z) : result (gset Z) :=
  match fuel with
  | O => Diverge
  | S fuel' =>
      if bool_decide (op_id ∈ to_delete_ids) then Ok to_delete_ids
      else
        fold_left
          (fun acc operator =>
             let? to_delete_ids := acc in
             match OperatorInfo.dependencies operator with
             | None => Raise (TypeError "argument of type 'NoneType' is not iterable")
             | Some deps =>
                 if bool_decide (op_id ∈ deps)
                 then _find_all_dependent_operator_ids fuel' ops
                        (OperatorInfo.id operator) to_delete_ids
                 else Ok to_delete_ids
             end)
          ops (Ok ({[op_id]} ∪ to_delete_ids))
  end.

Definition delete_one_operator_by_dep (fuel : nat) (op_id : Z) : M t unit := fun m =>
  match operators m !! op_id with
  | None => (Raise (not_found op_id), m)
  | Some _ =>
      match _find_all_dependent_operator_ids fuel (values m) op_id ∅ with
      | Ok to_delete_ids => for_each (elements to_delete_ids) remove_operator m
      | Raise e => (Raise e, m)
      | Diverge => (Diverge, m)
      end
  end.

(** The body of the inner loop of [delete_one_operator] for one object. *)
Definition rewrite_references (old_key i : Z) (r : ref) : M t unit :=
  let* m := get in
  match OperatorInfo.dependencies (deref m r) with
  | None => raise (TypeError "argument of type 'NoneType' is not iterable")
  | Some deps =>
      if bool_decide (old_key ∈ deps) then
        modify (update_object r (OperatorInfo.set_dependencies
          (Some ((fun dep => if bool_decide (dep = old_key) then i else dep) <$> deps)))) ;;
        let* m := get in
        let* code := lift (re_sub_opt
          (sub_literal ("op_" ++ str_of_int old_key) ("op_" ++ str_of_int i))
          (OperatorInfo.op_compute_func (deref m r))) in
        modify (update_object r (OperatorInfo.set_op_compute_func code)) ;;
        let* m := get in
        let* code := lift (re_sub_opt
          (sub_literal ("op_count_" ++ str_of_int old_key) ("op_count_" ++ str_of_int i))
          (OperatorInfo.op_count_func (deref m r))) in
        modify (update_object r (OperatorInfo.set_op_count_func code))
      else ret tt
  end.

(** One round of the renumbering loop: [old_key] becomes [i]. *)
Definition renumber (i old_key : Z) : M t unit :=
  if bool_decide (old_key = i) then ret tt
  else
    let* m := get in
    match operators m !! old_key with
    | None => raise (KeyError (str_of_int old_key))
    | Some r =>
        modify (set_operators (<[i := r]> (operators m))) ;;
        modify (update_object r (OperatorInfo.set_id i)) ;;
        let* m := get in
        let* code := lift (re_sub_opt
          (sub_first_id "def op_" ("op_" ++ str_of_int i))
          (OperatorInfo.op_compute_func (deref m r))) in
        modify (update_object r (OperatorInfo.set_op_compute_func code)) ;;
        let* m := get in
        let* code := lift (re_sub_opt
          (sub_first_id "def op_count_" ("op_count_" ++ str_of_int i))
          (OperatorInfo.op_count_func (deref m r))) in
        modify (update_object r (OperatorInfo.set_op_count_func code)) ;;
        let* m := get in
        for_each (value_refs m) (rewrite_references old_key i) ;;
        modify (fun m => set_operators (delete old_key (operators m)) m)
    end.

Definition delete_one_operator (fuel : nat) (op_id : Z) : M t unit :=
  delete_one_operator_by_dep fuel op_id ;;
  let* m := get in
  let sorted_keys := merge_sort Z.le (keys m) in
  for_each (zip (seqZ 1 (Z.of_nat (length sorted_keys))) sorted_keys)
           (fun '(i, old_key) => renumber i old_key).

(** Truth value of a JSON datum, as [not x] reads it. *)
Definition truthy (j : json) : bool :=
  match j with
  | JNull => false
  | JBool b => b
  | JInt z => negb (z =? 0)
  | JStr s => negb (String.eqb s "")
  | JList l => match l with [] => false | _ => true end
  | JDict d => match d with [] => false | _ => true end
  end.

(** [self.symbol_to_operators.get(symbol, [])]. *)
Definition get_operators_by_symbol (symbol : string) (m : t) : list ref :=
  default [] (symbol_to_operators m !! symbol).

(** [get_operator_function_id]: the first operator listed under the
    symbol with the arity asked for. *)
Definition get_operator_function_id (operator_symbol : string) (is_unary : bool)
    (m : t) : option Z * bool :=
  match
    List.find
      (fun r => is_unary && (OperatorInfo.n_ary (deref m r) =? 1)
                || negb is_unary && (OperatorInfo.n_ary (deref m r) =? 2))
      (default [] (symbol_to_operators m !! operator_symbol))
  with
  | Some r => (Some (OperatorInfo.id (deref m r)), OperatorInfo.is_temporary (deref m r))
  | None => (None, false)
  end.

Definition get_operator_by_base (base : Z) : M t (list ref) := fun m =>
  match base_operators m !! base with
  | None => (Raise (ValueError ("Base type " ++ str_of_int base ++ " does not exist.")), m)
  | Some l => (Ok l, m)
  end.

(** [get_unary_and_binary_operators]: prefix, postfix and binary
    operators among [self.operators.values()]. *)
Definition get_unary_and_binary_operators (m : t)
    : list OperatorInfo * list OperatorInfo * list OperatorInfo :=
  let unary_prefix_ops :=
    List.filter (fun op => (OperatorInfo.n_ary op =? 1)
                           && bool_decide (OperatorInfo.unary_position op = Some "prefix"))
                (values m) in
  let unary_postfix_ops :=
    List.filter (fun op => (OperatorInfo.n_ary op =? 1)
                           && bool_decide (OperatorInfo.unary_position op = Some "postfix"))
                (values m) in
  let binary_ops := List.filter (fun op => OperatorInfo.n_ary op =? 2) (values m) in
  (unary_prefix_ops, unary_postfix_ops, binary_ops).

(** [update_operator_temporary_status]: the lists of
    [symbol_to_operators] are searched for the id. *)
Definition update_operator_temporary_status (operator_id : Z) (new_status : bool)
    : M t bool := fun m =>
  match
    List.find (fun r => OperatorInfo.id (deref m r) =? operator_id)
              (concat (map_to_list (symbol_to_operators m)).*2)
  with
  | Some r => (Ok true, update_object r (OperatorInfo.set_is_temporary new_status) m)
  | None => (Ok false, m)
  end.

(** [update_operator].  [symbol_to_operators] is a [defaultdict(list)]:
    reading a missing symbol leaves an empty list behind.  The call
    [self.calculate_order()] at the end passes no operator id. *)
Definition update_operator (op_id : Z) (updated_data : list (string * json))
    : M t unit := fun m =>
  match operators m !! op_id with
  | None => (Raise (not_found op_id), m)
  | Some r =>
      let updated_data := dict_set "id" (JInt op_id) updated_data in
      if negb (match assoc "compute_func" updated_data with
               | Some v => truthy v
               | None => false
               end)
      then (Raise (ValueError "compute_func must be provided."), m)
      else
        let updated_data := dict_set "n_order" JNull updated_data in
        let old_operator := deref m r in
        let m := set_operators (delete op_id (operators m)) m in
        let l := default [] (symbol_to_operators m !! OperatorInfo.symbol old_operator) in
        match list_remove_first r l with
        | None =>
            (Raise (ValueError "list.remove(x): x not in list"),
             set_symbol_to_operators
               (<[OperatorInfo.symbol old_operator := l]> (symbol_to_operators m)) m)
        | Some l' =>
            let m := set_symbol_to_operators
                       (<[OperatorInfo.symbol old_operator := l']> (symbol_to_operators m)) m in
            match OperatorInfo.init updated_data with
            | Ok updated_operator =>
                let r' := fresh (dom (objects m)) in
                let m := set_objects (<[r' := updated_operator]> (objects m)) m in
                let m := set_operators
                           (<[OperatorInfo.id updated_operator := r']> (operators m)) m in
                let m := set_symbol_to_operators
                           (append_at (OperatorInfo.symbol updated_operator) r'
                                      (symbol_to_operators m)) m in
                (Raise (TypeError
                   "calculate_order() missing 1 required positional argument: 'operator_id'"),
                 m)
            | Raise e => (Raise e, m)
            | Diverge => (Diverge, m)
            end
        end
  end.


End OperatorManager.

Abbreviation OperatorManager := OperatorManager.t.

(** ** expression/expression_node.py *)

(** The four node classes.  [position] is the attribute of the base class,
    [None] until the parent assigns it.  The children of an application are
    attached right after construction and before the node is used. *)
Inductive ExpressionNode : Type :=
| NumberNode (position : option string) (value : Z) (base : Z)
| VariableNode (position : option string) (v : string)
| BinaryExpressionNode (position : option string) (operator : OperatorInfo)
    (left_expr right_expr : ExpressionNode)
| UnaryExpressionNode (position : option string) (operator : OperatorInfo)
    (unary_expr : ExpressionNode).

Definition position (node : ExpressionNode) : option string :=
  match node with
  | NumberNode p _ _ | VariableNode p _
  | BinaryExpressionNode p _ _ _ | UnaryExpressionNode p _ _ => p
  end.

(** [node.position = pos]. *)
Definition set_position (pos : string) (node : ExpressionNode) : ExpressionNode :=
  match node with
  | NumberNode _ value base => NumberNode (Some pos) value base
  | VariableNode _ v => VariableNode (Some pos) v
  | BinaryExpressionNode _ op l r => BinaryExpressionNode (Some pos) op l r
  | UnaryExpressionNode _ op e => UnaryExpressionNode (Some pos) op e
  end.

Module NumberNode.

Definition to_str_no_base_symbol (value : Z) (op_mode : bool) : string :=
  if op_mode then str_of_int value else "$" ++ str_of_int value ++ "$".

(** [to_str].  [base_operators] is a [defaultdict(list)]: a missing base
    reads as the empty list (the entry it leaves behind is not tracked).
    [base_converter] is the [BaseConverter.convert] of the evaluator,
    whose source is outside this repository slice. *)
Definition to_str (value base : Z) (operator_manager : OperatorManager)
    (base_converter : option (Z -> Z -> result string)) : result string :=
  let op_info := default [] (OperatorManager.base_operators operator_manager !! base) in
  match base_converter with
  | None => Raise (ValueError "In NumberNode, base_converter is None")
  | Some convert =>
      match op_info with
      | [r] =>
          let? digits := convert value base in
          Ok (OperatorInfo.symbol (OperatorManager.deref operator_manager r) ++ digits)
      | _ => Raise AssertionError
      end
  end.

End NumberNode.

(** Comparisons and sums of values that Python checks at run time. *)
Definition py_lt (a b : option Z) : result bool :=
  match a, b with
  | Some x, Some y => Ok (x <? y)
  | _, _ => Raise (TypeError "'<' not supported between instances of 'NoneType' and 'int'")
  end.

Definition py_add (a b : pyval) : result pyval :=
  match a, b with
  | PInt x, PInt y => Ok (PInt (x + y))
  | PStr x, PStr y => Ok (PStr (x ++ y))
  | PStr _, PInt _ => Raise (TypeError "can only concatenate str (not 'int') to str")
  | PInt _, PStr _ => Raise (TypeError "unsupported operand type(s) for +: 'int' and 'str'")
  end.

(** [f(args)] where [f] may be [None]. *)
Definition py_call (f : option pyfunc) (args : list pyval) : result pyval :=
  match f with
  | Some g => g args
  | None => Raise (TypeError "'NoneType' object is not callable")
  end.

(** ** expression/expression_evaluator.py *)

Module ExpressionEvaluator.

(** The attributes of an evaluator.  [expression_str_no_base_symbol],
    [normalized_expansion_degree] and [expr_result] do not exist until
    first assigned ([hasattr] is false): [None] here.  [atoms] has the
    keys [left_bracket], [right_bracket], [NaN] and [equal]. *)
Record t : Type := mk {
  id : option Z;
  expression_tree : option ExpressionNode;
  expression_str : option string;
  expression_str_no_base_symbol : option string;
  base_converter : option (Z -> Z -> result string);
  all_priority : list Z;
  operation_count : Z;
  highest_n_order : Z;
  all_operators : gmap Z Z;
  with_all_brackets : bool;
  atoms : gmap string string;
  normalized_expansion_degree : option pyval;
  expr_result : option pyval
}.
Definition set_id (v : option Z) (self : t) : t :=
  mk v (expression_tree self) (expression_str self) (expression_str_no_base_symbol self) (base_converter self) (all_priority self) (operation_count self) (highest_n_order self) (all_operators self) (with_all_brackets self) (atoms self) (normalized_expansion_degree self) (expr_result self).
Definition set_expression_tree (v : option ExpressionNode) (self : t) : t :=
  mk (id self) v (expression_str self) (expression_str_no_base_symbol self) (base_converter self) (all_priority self) (operation_count self) (highest_n_order self) (all_operators self) (with_all_brackets self) (atoms self) (normalized_expansion_degree self) (expr_result self).
Definition set_expression_str (v : option string) (self : t) : t :=
  mk (id self) (expression_tree self) v (expression_str_no_base_symbol self) (base_converter self) (all_priority self) (operation_count self) (highest_n_order self) (all_operators self) (with_all_brackets self) (atoms self) (normalized_expansion_degree self) (expr_result self).
Definition set_expression_str_no_base_symbol (v : option string) (self : t) : t :=
  mk (id self) (expression_tree self) (expression_str self) v (base_converter self) (all_priority self) (operation_count self) (highest_n_order self) (all_operators self) (with_all_brackets self) (atoms self) (normalized_expansion_degree self) (expr_result self).
Definition set_all_priority (v : list Z) (self : t) : t :=
  mk (id self) (expression_tree self) (expression_str self) (expression_str_no_base_symbol self) (base_converter self) v (operation_count self) (highest_n_order self) (all_operators self) (with_all_brackets self) (atoms self) (normalized_expansion_degree self) (expr_result self).
Definition set_operation_count (v : Z) (self : t) : t :=
  mk (id self) (expression_tree self) (expression_str self) (expression_str_no_base_symbol self) (base_converter self) (all_priority self) v (highest_n_order self) (all_operators self) (with_all_brackets self) (atoms self) (normalized_expansion_degree self) (expr_result self).
Definition set_highest_n_order (v : Z) (self : t) : t :=
  mk (id self) (expression_tree self) (expression_str self) (expression_str_no_base_symbol self) (base_converter self) (all_priority self) (operation_count self) v (all_operators self) (with_all_brackets self) (atoms self) (normalized_expansion_degree self) (expr_result self).
Definition set_all_operators (v : gmap Z Z) (self : t) : t :=
  mk (id self) (expression_tree self) (expression_str self) (expression_str_no_base_symbol self) (base_converter self) (all_priority self) (operation_count self) (highest_n_order self) v (with_all_brackets self) (atoms self) (normalized_expansion_degree self) (expr_result self).
Definition set_with_all_brackets (v : bool) (self : t) : t :=
  mk (id self) (expression_tree self) (expression_str self) (expression_str_no_base_symbol self) (base_converter self) (all_priority self) (operation_count self) (highest_n_order self) (all_operators self) v (atoms self) (normalized_expansion_degree self) (expr_result self).
Definition set_normalized_expansion_degree (v : option pyval) (self : t) : t :=
  mk (id self) (expression_tree self) (expression_str self) (expression_str_no_base_symbol self) (base_converter self) (all_priority self) (operation_count self) (highest_n_order self) (all_operators self) (with_all_brackets self) (atoms self) v (expr_result self).
Definition set_expr_result (v : option pyval) (self : t) : t :=
  mk (id self) (expression_tree self) (expression_str self) (expression_str_no_base_symbol self) (base_converter self) (all_priority self) (operation_count self) (highest_n_order self) (all_operators self) (with_all_brackets self) (atoms self) (normalized_expansion_degree self) v.

Definition atom (self : t) (key : string) : result string :=
  match atoms self !! key with
  | Some a => Ok a
  | None => Raise (KeyError key)
  end.

Section walk.

(** The registry the evaluator was built with, and Python's [exec]. *)
Variable operator_manager : OperatorManager.
Variable py_exec : string -> string -> option pyfunc.

(** The bookkeeping at the start of both application branches of
    [tree_to_str]. *)
Definition count_operator (operator : OperatorInfo) : M t unit :=
  let* self := get in
  (match OperatorInfo.priority operator with
   | Some p =>
       if bool_decide (p ∈ all_priority self)
       then ret tt
       else modify (set_all_priority (all_priority self ++ [p])%list)
   | None => ret tt
   end) ;;
  modify (fun self => set_operation_count (operation_count self + 1) self) ;;
  modify (fun self =>
    set_all_operators
      (<[OperatorInfo.id operator :=
           default 0 (all_operators self !! OperatorInfo.id operator) + 1]>
         (all_operators self)) self) ;;
  let* self := get in
  let* higher := lift (py_lt (Some (highest_n_order self))
                             (OperatorInfo.n_order operator)) in
  if higher : bool
  then modify (set_highest_n_order (default 0 (OperatorInfo.n_order operator)))
  else ret tt.

Fixpoint tree_to_str (node : ExpressionNode) (parent_op : option OperatorInfo)
    (with_base_symbol op_mode : bool) : M t string :=
  match node with
  | NumberNode _ value base =>
      if op_mode then ret (NumberNode.to_str_no_base_symbol value true)
      else if with_base_symbol then
        let* self := get in
        lift (NumberNode.to_str value base operator_manager (base_converter self))
      else ret (NumberNode.to_str_no_base_symbol value false)
  | VariableNode _ v => ret v
  | BinaryExpressionNode position operator left_expr right_expr =>
      count_operator operator ;;
      let* left_str :=
        tree_to_str left_expr (Some operator) with_base_symbol op_mode in
      let* right_str :=
        tree_to_str right_expr (Some operator) with_base_symbol op_mode in
      let* self := get in
      let plain := ret (left_str ++ OperatorInfo.symbol operator ++ right_str) in
      let bracketed :=
        let* lb := lift (atom self "left_bracket") in
        let* rb := lift (atom self "right_bracket") in
        ret (lb ++ left_str ++ OperatorInfo.symbol operator ++ right_str ++ rb) in
      if with_all_brackets self then bracketed
      else
        match parent_op with
        | None => plain
        | Some parent =>
            let* lower := lift (py_lt (OperatorInfo.priority operator)
                                      (OperatorInfo.priority parent)) in
            if lower : bool then bracketed
            else if bool_decide (OperatorInfo.priority operator
                                 = OperatorInfo.priority parent) then
              if bool_decide (OperatorInfo.associativity_direction parent = Some "left")
                 && bool_decide (position = Some "right")
              then bracketed
              else if bool_decide (OperatorInfo.associativity_direction parent = Some "right")
                      && bool_decide (position = Some "left")
              then bracketed
              else plain
            else plain
        end
  | UnaryExpressionNode _ operator unary_expr =>
      count_operator operator ;;
      let* unary_str :=
        tree_to_str unary_expr (Some operator) with_base_symbol op_mode in
      ret ("(" ++ OperatorInfo.symbol operator ++ unary_str ++ ")")
  end.

(** A tree that is [None] is none of the four classes. *)
Definition tree_to_str_opt (node : option ExpressionNode)
    (with_base_symbol op_mode : bool) : M t string :=
  match node with
  | Some n => tree_to_str n None with_base_symbol op_mode
  | None => raise (NotImplementedError "ExpressionEvaluator.tree_to_str")
  end.

Definition init_expr (expression_tree : option ExpressionNode) (id : option Z)
    (op_mode : bool) : M t unit :=
  modify (set_id id) ;;
  modify (set_expression_tree expression_tree) ;;
  modify (set_all_priority []) ;;
  modify (set_operation_count 0) ;;
  modify (set_highest_n_order 0) ;;
  modify (set_all_operators ∅) ;;
  if op_mode then
    let* s := tree_to_str_opt expression_tree true true in
    modify (set_expression_str (Some s))
  else
    let* s := tree_to_str_opt expression_tree true false in
    modify (set_expression_str (Some s)) ;;
    let* s := tree_to_str_opt expression_tree false false in
    modify (set_expression_str_no_base_symbol (Some s)).

Definition is_NaN (v : pyval) : bool := pyval_eqb v NaN.

(** The structural fold: (degree, result) of the tree rooted at
    [node]. *)
Fixpoint calculate_normalized_expansion_degree_node (node : ExpressionNode)
    : result (pyval * pyval) :=
  match node with
  | NumberNode _ value _ => Ok (PInt 0, PInt value)
  | UnaryExpressionNode _ operator unary_expr =>
      let? (sub_degree, sub_result) :=
        calculate_normalized_expansion_degree_node unary_expr in
      if is_NaN sub_degree || is_NaN sub_result then Ok (NaN, NaN)
      else
        let? cur_result :=
          py_call (OperatorInfo.get_compute_function py_exec operator) [sub_result] in
        let? cur_degree :=
          py_call (OperatorInfo.get_count_function py_exec operator) [sub_result] in
        let? degree := py_add cur_degree sub_degree in
        Ok (degree, cur_result)
  | BinaryExpressionNode _ operator left_expr right_expr =>
      let? (left_degree, left_result) :=
        calculate_normalized_expansion_degree_node left_expr in
      if is_NaN left_degree || is_NaN left_result then Ok (NaN, NaN)
      else
        let? (right_degree, right_result) :=
          calculate_normalized_expansion_degree_node right_expr in
        if is_NaN right_degree || is_NaN right_result then Ok (NaN, NaN)
        else
          let? cur_result :=
            py_call (OperatorInfo.get_compute_function py_exec operator)
                    [left_result; right_result] in
          let? cur_degree :=
            py_call (OperatorInfo.get_count_function py_exec operator)
                    [left_result; right_result] in
          if is_NaN cur_degree || is_NaN cur_result then Ok (NaN, NaN)
          else
            let? degree := py_add cur_degree left_degree in
            let? degree := py_add degree right_degree in
            Ok (degree, cur_result)
  | VariableNode _ _ => Ok (NaN, NaN)
  end.

Definition fold_opt (node : option ExpressionNode) : result (pyval * pyval) :=
  match node with
  | Some n => calculate_normalized_expansion_degree_node n
  | None => Raise (NotImplementedError
              "ExpressionEvaluator.calculate_normalized_expansion_degree_node")
  end.

(** [v if v != "NaN" else self.atoms["NaN"]]. *)
Definition shown (self : t) (v : pyval) : result pyval :=
  if is_NaN v then let? a := atom self "NaN" in Ok (PStr a) else Ok v.

Definition calculate_normalized_expansion_degree : M t pyval :=
  let* self := get in
  match normalized_expansion_degree self with
  | Some degree => lift (shown self degree)
  | None =>
      let* (degree, result) := lift (fold_opt (expression_tree self)) in
      modify (set_normalized_expansion_degree (Some degree)) ;;
      modify (set_expr_result (Some result)) ;;
      let* self := get in
      lift (shown self degree)
  end.

Definition calculate_result : M t pyval :=
  let* self := get in
  match expr_result self with
  | Some result => lift (shown self result)
  | None =>
      let* (degree, result) := lift (fold_opt (expression_tree self)) in
      modify (set_normalized_expansion_degree (Some degree)) ;;
      modify (set_expr_result (Some result)) ;;
      let* self := get in
      lift (shown self result)
  end.

End walk.

Definition calculate_highest_n_order (self : t) : Z := highest_n_order self.

Definition calculate_priority_hierarchical_complexity (self : t) : Z :=
  Z.of_nat (length (all_priority self)).

Definition calculate_operation_count (self : t) : Z := operation_count self.

(** The value of [calculate_complexity_ratio]: the integer [0], or the
    outcome of Python's true division [a / b] of two integers, which is
    left as it stands. *)
Inductive ratio : Type :=
| RZero
| RTrueDiv (a b : Z).

Definition calculate_complexity_ratio (py_exec : string -> string -> option pyfunc)
    : M t ratio :=
  let* self := get in
  let operation_count := calculate_operation_count self in
  let* normalized_expansion_degree := calculate_normalized_expansion_degree py_exec in
  if (0 <? operation_count) && negb (is_NaN normalized_expansion_degree) then
    match normalized_expansion_degree with
    | PInt degree => ret (RTrueDiv degree operation_count)
    | PStr _ => raise (TypeError "unsupported operand type(s) for /: 'str' and 'int'")
    end
  else ret RZero.


End ExpressionEvaluator.

(** ** The [random] module

    The state of the generator is a tape of natural numbers, one per call;
    a call on an empty tape has no outcome.  Weights are natural numbers
    (the configured weights up to a common factor). *)

Module Random.

Definition draw : M (list nat) nat := fun tape =>
  match tape with
  | n :: tape' => (Ok n, tape')
  | [] => (Diverge, [])
  end.

(** [random.choice(seq)]. *)
Definition choice {A} (seq : list A) : M (list nat) A :=
  match seq with
  | [] => raise (IndexError "Cannot choose from an empty sequence")
  | x :: _ => let* n := draw in ret (nth (n mod length seq)%nat seq x)
  end.

(** [random.randint(a, b)]. *)
Definition randint (a b : Z) : M (list nat) Z :=
  if b <? a then raise (ValueError "empty range for randrange()")
  else let* n := draw in ret (a + Z.of_nat n mod (b - a + 1)).

(** The element of [population] on which the point [n] of the cumulated
    weights falls. *)
Fixpoint pick {A} (n : nat) (population : list A) (weights : list nat) (dflt : A) : A :=
  match population, weights with
  | x :: population', w :: weights' =>
      if (n <? w)%nat then x else pick (n - w)%nat population' weights' dflt
  | _, _ => dflt
  end.

(** [random.choices(population, weights)[0]]. *)
Definition choices {A} (population : list A) (weights : list nat) : M (list nat) A :=
  match population with
  | [] => raise (IndexError "list index out of range")
  | x :: _ =>
      if bool_decide (length population ≠ length weights)
      then raise (ValueError "The number of weights does not match the population")
      else
        let total := foldr Nat.add 0%nat weights in
        if (total =? 0)%nat
        then raise (ValueError "Total of weights must be greater than zero")
        else let* n := draw in ret (pick (n mod total)%nat population weights x)
  end.

End Random.

(** ** expression/expression_generator.py *)

Module ExpressionGenerator.

(** The attributes read by [generate_expression] and [generate_atoms];
    [tape] is the state of the [random] module. *)
Record t : Type := mk {
  variables : list string;
  max_value : Z;
  min_value : Z;
  max_depth : Z;
  expr_type_weights : gmap string nat;
  max_base : Z;
  binary_ops : list OperatorInfo;
  unary_postfix_ops : list OperatorInfo;
  unary_prefix_ops : list OperatorInfo;
  atoms_type_weights : gmap string nat;
  tape : list nat
}.
Definition set_variables (v : list string) (self : t) : t :=
  mk v (max_value self) (min_value self) (max_depth self) (expr_type_weights self) (max_base self) (binary_ops self) (unary_postfix_ops self) (unary_prefix_ops self) (atoms_type_weights self) (tape self).
Definition set_max_depth (v : Z) (self : t) : t :=
  mk (variables self) (max_value self) (min_value self) v (expr_type_weights self) (max_base self) (binary_ops self) (unary_postfix_ops self) (unary_prefix_ops self) (atoms_type_weights self) (tape self).
Definition set_tape (v : list nat) (self : t) : t :=
  mk (variables self) (max_value self) (min_value self) (max_depth self) (expr_type_weights self) (max_base self) (binary_ops self) (unary_postfix_ops self) (unary_prefix_ops self) (atoms_type_weights self) v.

(** A call into the [random] module. *)
Definition rand {A} (r : M (list nat) A) : M t A := fun self =>
  let '(a, tape') := r (tape self) in (a, set_tape tape' self).

Definition weight (w : gmap string nat) (key : string) : result nat :=
  match w !! key with
  | Some x => Ok x
  | None => Raise (KeyError key)
  end.

Definition generate_random_value : M t Z :=
  let* self := get in rand (Random.randint (min_value self) (max_value self)).

Definition generate_random_base : M t Z :=
  let* self := get in rand (Random.randint 2 (max_base self)).

Definition generate_atoms (atom_choice : string) : M t ExpressionNode :=
  let variable :=
    let* self := get in
    let* v := rand (Random.choice (variables self)) in
    ret (VariableNode None v) in
  let number :=
    let* value := generate_random_value in
    let* base := generate_random_base in
    ret (NumberNode None value base) in
  if String.eqb atom_choice "variable" then variable
  else if String.eqb atom_choice "number" then number
  else if String.eqb atom_choice "variable_and_number" then
    let* self := get in
    let* wv := lift (weight (atoms_type_weights self) "variable") in
    let* wn := lift (weight (atoms_type_weights self) "number") in
    let* atoms_type := rand (Random.choices ["variable"; "number"] [wv; wn]) in
    if String.eqb atoms_type "variable" then variable else number
  else raise (ValueError ("Unknown atom_choice value: " ++ atom_choice)).

(** [child.position = pos] on the value a recursive call returned. *)
Definition tag (pos : string) (child : option ExpressionNode) : M t ExpressionNode :=
  match child with
  | Some n => ret (set_position pos n)
  | None => raise (AttributeError "'NoneType' object has no attribute 'position'")
  end.

(** The draw of the node category:
    [random.choices([...], weights=[...])[0]]. *)
Definition draw_expr_type : M t string :=
  let* self := get in
  let* wb := lift (weight (expr_type_weights self) "binary") in
  let* wp := lift (weight (expr_type_weights self) "unary_prefix") in
  let* wq := lift (weight (expr_type_weights self) "unary_postfix") in
  let* wa := lift (weight (expr_type_weights self) "atoms") in
  rand (Random.choices ["binary"; "unary_prefix"; "unary_postfix"; "atoms"]
                       [wb; wp; wq; wa]).

(** [generate_expression]; [fuel] bounds the number of nested calls.
    The value is [None] where the Python function ends without a
    [return]. *)
Fixpoint generate_expression (fuel : nat) (cur_depth max_depth : Z)
    (atom_choice : string) : M t (option ExpressionNode) :=
  match fuel with
  | O => lift Diverge
  | S fuel' =>
      if max_depth <=? cur_depth then
        let* expr_node := generate_atoms atom_choice in
        ret (Some expr_node)
      else
        let* expr_type := draw_expr_type in
        let* self := get in
        if String.eqb expr_type "binary" then
          match binary_ops self with
          | [] => generate_expression fuel' cur_depth max_depth atom_choice
          | _ =>
              let* select_op := rand (Random.choice (binary_ops self)) in
              let* l := generate_expression fuel' (cur_depth + 1) max_depth atom_choice in
              let* l := tag "left" l in
              let* r := generate_expression fuel' (cur_depth + 1) max_depth atom_choice in
              let* r := tag "right" r in
              ret (Some (BinaryExpressionNode None select_op l r))
          end
        else if String.eqb expr_type "unary_prefix" then
          match unary_prefix_ops self with
          | [] => generate_expression fuel' cur_depth max_depth atom_choice
          | _ =>
              let* select_op := rand (Random.choice (unary_prefix_ops self)) in
              match OperatorInfo.is_base select_op with
              | Some b =>
                  if b =? 0 then
                    let* e := generate_expression fuel' (cur_depth + 1) max_depth atom_choice in
                    let* e := tag "unary" e in
                    ret (Some (UnaryExpressionNode None select_op e))
                  else raise (SystemExit 1)
              | None =>
                  let* e := generate_expression fuel' (cur_depth + 1) max_depth atom_choice in
                  let* e := tag "unary" e in
                  ret (Some (UnaryExpressionNode None select_op e))
              end
          end
        else if String.eqb expr_type "unary_postfix" then
          match unary_postfix_ops self with
          | [] => generate_expression fuel' cur_depth max_depth atom_choice
          | _ =>
              let* select_op := rand (Random.choice (unary_postfix_ops self)) in
              let* e := generate_expression fuel' (cur_depth + 1) max_depth atom_choice in
              let* e := tag "unary" e in
              let expr_node := UnaryExpressionNode None select_op e in
              ret None
          end
        else if String.eqb expr_type "atoms" then
          let* expr_node := generate_atoms atom_choice in
          ret (Some expr_node)
        else ret None
  end.

(** Assignment of the three operator pools. *)
Definition set_operator_pools (prefix postfix binary : list OperatorInfo) (self : t) : t :=
  mk (variables self) (max_value self) (min_value self) (max_depth self) (expr_type_weights self) (max_base self) binary postfix prefix (atoms_type_weights self) (tape self).

(** The generator with the evaluator it owns and its expression counter.
    The registry, which the generator shares with the evaluator, is only
    read by [create_expression_str]. *)
Record with_evaluator : Type := mk_with_evaluator {
  generator : t;
  expr_evaluator : ExpressionEvaluator.t;
  cur_expr_id : Z
}.

(** A method of the generator proper, and one of [self.expr_evaluator]. *)
Definition on_generator {A} (c : M t A) : M with_evaluator A := fun self =>
  let '(a, g) := c (generator self) in
  (a, mk_with_evaluator g (expr_evaluator self) (cur_expr_id self)).

Definition on_evaluator {A} (c : M ExpressionEvaluator.t A) : M with_evaluator A :=
  fun self =>
    let '(a, e) := c (expr_evaluator self) in
    (a, mk_with_evaluator (generator self) e (cur_expr_id self)).

Definition create_expression_str (operator_manager : OperatorManager) (fuel : nat)
    (atom_choice : string) : M with_evaluator (option string) :=
  let '(unary_prefix_ops, unary_postfix_ops, binary_ops) :=
    OperatorManager.get_unary_and_binary_operators operator_manager in
  on_generator (modify (set_operator_pools unary_prefix_ops unary_postfix_ops binary_ops)) ;;
  let* self := get in
  let* expression_tree :=
    on_generator (generate_expression fuel 0 (max_depth (generator self)) atom_choice) in
  on_evaluator (modify (ExpressionEvaluator.set_with_all_brackets true)) ;;
  let* self := get in
  on_evaluator (ExpressionEvaluator.init_expr operator_manager expression_tree
                  (Some (cur_expr_id self)) true) ;;
  let* self := get in
  ret (ExpressionEvaluator.expression_str (expr_evaluator self)).


End ExpressionGenerator.

(** ** operatorplus/operator_generator.py *)

Module OperatorGenerator.

(** The generator with the objects it mutates: the registry, the state
    of [random], and the variable lists of the expression and condition
    generators.  The four atoms are those of [param_config.atoms]. *)
Record t : Type := mk {
  operator_manager : OperatorManager;
  tape : list nat;
  expr_generator_variables : list string;
  condition_generator_variables : list string;
  valid_symbols : list string;
  unary_variables : list string;
  binary_variables : list string;
  operator_symbol_min_len : Z;
  operator_symbol_max_len : Z;
  left_operand : string;
  right_operand : string;
  left_parenthesis : string;
  right_parenthesis : string
}.
Definition set_operator_manager (v : OperatorManager) (self : t) : t :=
  mk v (tape self) (expr_generator_variables self) (condition_generator_variables self) (valid_symbols self) (unary_variables self) (binary_variables self) (operator_symbol_min_len self) (operator_symbol_max_len self) (left_operand self) (right_operand self) (left_parenthesis self) (right_parenthesis self).
Definition set_tape (v : list nat) (self : t) : t :=
  mk (operator_manager self) v (expr_generator_variables self) (condition_generator_variables self) (valid_symbols self) (unary_variables self) (binary_variables self) (operator_symbol_min_len self) (operator_symbol_max_len self) (left_operand self) (right_operand self) (left_parenthesis self) (right_parenthesis self).
Definition set_expr_generator_variables (v : list string) (self : t) : t :=
  mk (operator_manager self) (tape self) v (condition_generator_variables self) (valid_symbols self) (unary_variables self) (binary_variables self) (operator_symbol_min_len self) (operator_symbol_max_len self) (left_operand self) (right_operand self) (left_parenthesis self) (right_parenthesis self).
Definition set_condition_generator_variables (v : list string) (self : t) : t :=
  mk (operator_manager self) (tape self) (expr_generator_variables self) v (valid_symbols self) (unary_variables self) (binary_variables self) (operator_symbol_min_len self) (operator_symbol_max_len self) (left_operand self) (right_operand self) (left_parenthesis self) (right_parenthesis self).

Definition rand {A} (r : M (list nat) A) : M t A := fun self =>
  let '(a, tape') := r (tape self) in (a, set_tape tape' self).

(** A method of the registry called on [self.operator_manager]. *)
Definition on_manager {A} (c : M OperatorManager A) : M t A := fun self =>
  let '(a, m') := c (operator_manager self) in (a, set_operator_manager m' self).

(** Code that mutates the object behind [r]. *)
Definition on_object {A} (r : OperatorManager.ref) (c : M OperatorInfo A)
    : M OperatorManager A := fun m =>
  let '(a, o') := c (OperatorManager.deref m r) in
  (a, OperatorManager.update_object r (fun _ => o') m).

Definition join (parts : list string) : string := foldr String.append "" parts.

(** [random_operator]; [fuel] bounds the rounds of its [while True]. *)
Fixpoint random_symbol (length : nat) (symbols : list string) : M (list nat) string :=
  match length with
  | O => ret ""
  | S k =>
      let* c := Random.choice symbols in
      let* rest := random_symbol k symbols in
      ret (c ++ rest)
  end.

Fixpoint random_operator (fuel : nat) (existing_symbols : list string) : M t string :=
  match fuel with
  | O => lift Diverge
  | S fuel' =>
      let* self := get in
      let* length := rand (Random.randint (operator_symbol_min_len self)
                                          (operator_symbol_max_len self)) in
      let* new_symbol := rand (random_symbol (Z.to_nat length) (valid_symbols self)) in
      if bool_decide (new_symbol ∈ existing_symbols)
      then random_operator fuel' existing_symbols
      else ret new_symbol
  end.

Definition generate_lhs (op_symbol op_type : string) (op_position : option string)
    : M t string :=
  let* self := get in
  if String.eqb op_type "unary" then
    if bool_decide (op_position = Some "prefix") then ret (op_symbol ++ left_operand self)
    else if bool_decide (op_position = Some "postfix") then ret (left_operand self ++ op_symbol)
    else raise (ValueError "Invalid position for unary operator.")
  else if String.eqb op_type "binary" then
    ret (left_operand self ++ op_symbol ++ right_operand self)
  else raise (ValueError "Operator type must be either 'unary' or 'binary'.").

Definition get_random_recursive_call_operator : M t OperatorManager.ref :=
  let* self := get in
  let m := operator_manager self in
  match map_to_list (OperatorManager.operators m) with
  | [] => raise (ValueError "No operators available.")
  | items =>
      let recursive_operators :=
        filter (fun kr => OperatorInfo.is_recursion_enabled (OperatorManager.deref m kr.2) = true)
               items in
      match recursive_operators with
      | [] => raise (ValueError "No operators with recursion enabled.")
      | _ => let* kr := rand (Random.choice recursive_operators) in ret kr.2
      end
  end.

(** [set_bit_if_not_set]; the state is the called operator. *)
Definition set_bit_if_not_set (bit_position : Z) : M OperatorInfo bool :=
  if bit_position <? 0 then raise (ValueError "negative shift count")
  else
    let* called := get in
    if Z.land (OperatorInfo.recursive_used_cases called) (Z.shiftl 1 bit_position) =? 0
    then
      modify (OperatorInfo.set_recursive_used_cases
                (Z.lor (OperatorInfo.recursive_used_cases called)
                       (Z.shiftl 1 bit_position))) ;;
      let* called := get in
      (if OperatorInfo.n_ary called =? 1 then
         if OperatorInfo.recursive_used_cases called =? 3
         then modify (OperatorInfo.set_is_recursion_enabled false)
         else ret tt
       else if OperatorInfo.n_ary called =? 2 then
         if OperatorInfo.recursive_used_cases called =? 255
         then modify (OperatorInfo.set_is_recursion_enabled false)
         else ret tt
       else ret tt) ;;
      ret true
    else ret false.

(** [check_and_set_recursion_validity]; [lo] and [ro] are the operand
    atoms.  The value is [None] where the function ends without a
    [return]. *)
Definition check_and_set_recursion_validity (lo ro : string) (op_type : string)
    (param_order : option (string * string)) : M OperatorInfo (option bool) :=
  let* called := get in
  let n_ary := OperatorInfo.n_ary called in
  let order_is po := bool_decide (param_order = Some po) in
  let set_bit bit := let* b := set_bit_if_not_set bit in ret (Some b) in
  if String.eqb op_type "binary" && (n_ary =? 2) then
    if order_is ("result", "result") then set_bit 0
    else if order_is ("result", lo) then set_bit 1
    else if order_is ("result", ro) then set_bit 2
    else if order_is (lo, "result") then set_bit 3
    else if order_is (ro, "result") then set_bit 4
    else ret None
  else if String.eqb op_type "unary" && (n_ary =? 2) then
    if order_is ("result", "result") then set_bit 5
    else if order_is ("result", lo) then set_bit 6
    else if order_is (lo, "result") then set_bit 7
    else ret None
  else if String.eqb op_type "binary" && (n_ary =? 1) then set_bit 0
  else if String.eqb op_type "unary" && (n_ary =? 1) then set_bit 1
  else raise (ValueError "Invalid operation: op_type and param_order are not compatible.").

Definition nl : string := String (ascii_of_nat 10) "".
Definition indent : string := "    ".

(** The loop bodies emitted for a binary operator that calls [call]. *)
Definition loop_compute_fun (id : Z) (call : string) : string :=
  join [ "def op_"; str_of_int id; "(a, b):"; nl;
         indent; "if a == 'NaN' or b == 'NaN':"; nl;
         indent; indent; "return 'NaN'"; nl;
         indent; "result = a"; nl;
         indent; "for i in range(abs(b)):"; nl;
         indent; indent; "result = op_"; call; nl;
         indent; "return result"; nl ].

Definition loop_count_fun (id : Z) (call : string) : string :=
  join [ "def op_count_"; str_of_int id; "(a, b):"; nl;
         indent; "if a == 'NaN' or b == 'NaN':"; nl;
         indent; indent; "return 'NaN'"; nl;
         indent; "count = 0 "; nl;
         indent; "for i in range(abs(b)):"; nl;
         indent; indent; "count += op_count_"; call; nl;
         indent; "return count "; nl ].

Definition operator_data (id : Z) (op_symbol definition op_compute_fun op_count_fun : string)
    : list (string * json) :=
  [ ("id", JInt id); ("symbol", JStr op_symbol); ("n_ary", JInt 2);
    ("unary_position", JNull); ("is_base", JNull);
    ("definition", JStr definition);
    ("definition_type", JStr "recursive_definition");
    ("priority", JNull); ("associativity_direction", JNull); ("n_order", JNull);
    ("op_compute_func", JStr op_compute_fun);
    ("op_count_func", JStr op_count_fun);
    ("properties", JNull); ("dependencies", JNull); ("is_temporary", JBool true) ].

(** [generate_recursive_operator_data_by_loop].  The source fixes
    [op_type, op_position = "binary", None], so its branch for a unary
    new operator is never entered and only the binary branch is written
    out.  The value is [None] where the source returns [None]. *)
Definition generate_recursive_operator_data_by_loop (fuel : nat)
    : M t (option (list (string * json))) :=
  let* self := get in
  let existing_symbols := OperatorManager.get_operator_symbols (operator_manager self) in
  let* op_symbol := random_operator fuel existing_symbols in
  let op_type := "binary" in
  let op_position : option string := None in
  let variables := binary_variables self in
  modify (set_condition_generator_variables variables) ;;
  modify (set_expr_generator_variables variables) ;;
  let* self := get in
  let id := OperatorManager.get_next_operator_id (operator_manager self) in
  let* called := get_random_recursive_call_operator in
  let* self := get in
  let called_operator_info := OperatorManager.deref (operator_manager self) called in
  let called_id := OperatorInfo.id called_operator_info in
  let called_symbol := OperatorInfo.symbol called_operator_info in
  let* lhs := generate_lhs op_symbol op_type op_position in
  let lo := left_operand self in
  let ro := right_operand self in
  let lp := left_parenthesis self in
  let rp := right_parenthesis self in
  let recursive_1 := join [lo; op_symbol; lp; ro; "-1"; rp] in
  let recursive_2 := join [lo; op_symbol; lp; ro; "+1"; rp] in
  let define rhs_1 rhs_2 :=
    join [lhs; " = {"; lo; ", if "; ro; " == 0; "; rhs_1; ", if "; ro; " > 0; ";
          rhs_2; ", else}"] in
  if OperatorInfo.n_ary called_operator_info =? 2 then
    let* param_order :=
      rand (Random.choice [("result", "result"); ("result", lo); ("result", ro);
                           (lo, "result"); (ro, "result")]) in
    let '(param1, param2) := param_order in
    let* valid := on_manager (on_object called
                    (check_and_set_recursion_validity lo ro op_type (Some param_order))) in
    match valid with
    | Some true =>
        let call := join [str_of_int called_id; "("; param1; ", "; param2; ")"] in
        let op_compute_fun := loop_compute_fun id call in
        let op_count_fun := loop_count_fun id call in
        let param1_str_1 := if String.eqb param1 "result" then recursive_1 else param1 in
        let param1_str_2 := if String.eqb param1 "result" then recursive_2 else param1 in
        let param2_str_1 := if String.eqb param2 "result" then recursive_1 else param2 in
        let param2_str_2 := if String.eqb param2 "result" then recursive_2 else param2 in
        let rhs_1 := join [lp; param1_str_1; rp; called_symbol; lp; param2_str_1; rp] in
        let rhs_2 := join [lp; param1_str_2; rp; called_symbol; lp; param2_str_2; rp] in
        ret (Some (operator_data id op_symbol (define rhs_1 rhs_2)
                                 op_compute_fun op_count_fun))
    | _ => ret None
    end
  else if OperatorInfo.n_ary called_operator_info =? 1 then
    let* valid := on_manager (on_object called
                    (check_and_set_recursion_validity lo ro op_type None)) in
    match valid with
    | Some true =>
        let call := join [str_of_int called_id; "(result)"] in
        let op_compute_fun := loop_compute_fun id call in
        let op_count_fun := loop_count_fun id call in
        if bool_decide (OperatorInfo.unary_position called_operator_info = Some "prefix") then
          let rhs_1 := join [called_symbol; lp; recursive_1; rp] in
          let rhs_2 := join [called_symbol; lp; recursive_2; rp] in
          ret (Some (operator_data id op_symbol (define rhs_1 rhs_2)
                                   op_compute_fun op_count_fun))
        else if bool_decide (OperatorInfo.unary_position called_operator_info = Some "postfix") then
          let rhs_1 := join [lp; recursive_1; rp; called_symbol] in
          let rhs_2 := join [lp; recursive_2; rp; called_symbol] in
          ret (Some (operator_data id op_symbol (define rhs_1 rhs_2)
                                   op_compute_fun op_count_fun))
        else raise (UnboundLocalError "rhs_1")
    | _ => ret None
    end
  else raise (UnboundLocalError "definition").

End OperatorGenerator.

(** ** Vocabulary of the statements *)

(** A relation between the state before and after that every run of a
    computation keeps, whatever its outcome. *)
Definition preserves {S A} (R : S -> S -> Prop) (c : M S A) : Prop :=
  forall s r s', c s = (r, s') -> R s s'.

(** The mask never loses a bit and the recursion flag never comes back. *)
Definition no_bit_lost (before after : OperatorInfo) : Prop :=
  (forall i, Z.testbit (OperatorInfo.recursive_used_cases before) i = true ->
             Z.testbit (OperatorInfo.recursive_used_cases after) i = true) /\
  (OperatorInfo.is_recursion_enabled before = false ->
   OperatorInfo.is_recursion_enabled after = false).

Definition registry_no_bit_lost (g g' : OperatorGenerator.t) : Prop :=
  forall r, no_bit_lost
              (OperatorManager.deref (OperatorGenerator.operator_manager g) r)
              (OperatorManager.deref (OperatorGenerator.operator_manager g') r).

(** The attributes no walk of a tree assigns: the bracket mode, the atoms,
    the converter and the two cached results. *)
Definition walk_frame (s s' : ExpressionEvaluator.t) : Prop :=
  ExpressionEvaluator.with_all_brackets s' = ExpressionEvaluator.with_all_brackets s /\
  ExpressionEvaluator.atoms s' = ExpressionEvaluator.atoms s /\
  ExpressionEvaluator.base_converter s' = ExpressionEvaluator.base_converter s /\
  ExpressionEvaluator.normalized_expansion_degree s'
    = ExpressionEvaluator.normalized_expansion_degree s /\
  ExpressionEvaluator.expr_result s' = ExpressionEvaluator.expr_result s.

(** The parenthesization rule in the words of the specification. *)
Definition bracket_rule (all_brackets : bool) (p : Z) (position : option string)
    (parent : option OperatorInfo) : bool :=
  all_brackets ||
  match parent with
  | None => false
  | Some par =>
      match OperatorInfo.priority par with
      | Some q =>
          (p <? q) ||
          ((p =? q) &&
           ((bool_decide (OperatorInfo.associativity_direction par = Some "left")
             && bool_decide (position = Some "right"))
            || (bool_decide (OperatorInfo.associativity_direction par = Some "right")
                && bool_decide (position = Some "left"))))
      | None => false
      end
  end.

(** The tree has a [VariableNode] among its leaves. *)
Fixpoint has_variable (node : ExpressionNode) : bool :=
  match node with
  | NumberNode _ _ _ => false
  | VariableNode _ _ => true
  | BinaryExpressionNode _ _ l r => has_variable l || has_variable r
  | UnaryExpressionNode _ _ e => has_variable e
  end.

(** The node is a number or a variable. *)
Definition is_atom (node : ExpressionNode) : bool :=
  match node with
  | NumberNode _ _ _ | VariableNode _ _ => true
  | _ => false
  end.

(** The operators of the application nodes, in the order in which
    [tree_to_str] visits them: a node before its children, the left child
    before the right one. *)
Fixpoint operators_of (node : ExpressionNode) : list OperatorInfo :=
  match node with
  | NumberNode _ _ _ | VariableNode _ _ => []
  | BinaryExpressionNode _ operator l r => operator :: operators_of l ++ operators_of r
  | UnaryExpressionNode _ operator e => operator :: operators_of e
  end.

(** The unary operators of a tree. *)
Fixpoint unary_operators_of (node : ExpressionNode) : list OperatorInfo :=
  match node with
  | NumberNode _ _ _ | VariableNode _ _ => []
  | BinaryExpressionNode _ _ l r => unary_operators_of l ++ unary_operators_of r
  | UnaryExpressionNode _ operator e => operator :: unary_operators_of e
  end.

(** The binary operators of a tree. *)
Fixpoint binary_operators_of (node : ExpressionNode) : list OperatorInfo :=
  match node with
  | NumberNode _ _ _ | VariableNode _ _ => []
  | BinaryExpressionNode _ operator l r =>
      operator :: binary_operators_of l ++ binary_operators_of r
  | UnaryExpressionNode _ _ e => binary_operators_of e
  end.

(** The leaves of a tree, from left to right. *)
Fixpoint leaves_of (node : ExpressionNode) : list ExpressionNode :=
  match node with
  | NumberNode _ _ _ | VariableNode _ _ => [node]
  | BinaryExpressionNode _ _ l r => leaves_of l ++ leaves_of r
  | UnaryExpressionNode _ _ e => leaves_of e
  end.

(** Number of applications on the longest path from the root to a leaf. *)
Fixpoint depth (node : ExpressionNode) : Z :=
  match node with
  | NumberNode _ _ _ | VariableNode _ _ => 0
  | BinaryExpressionNode _ _ l r => 1 + Z.max (depth l) (depth r)
  | UnaryExpressionNode _ _ e => 1 + depth e
  end.

(** Every child carries the position its parent gave it. *)
Fixpoint well_tagged (node : ExpressionNode) : Prop :=
  match node with
  | NumberNode _ _ _ | VariableNode _ _ => True
  | BinaryExpressionNode _ _ l r =>
      position l = Some "left" /\ position r = Some "right" /\
      well_tagged l /\ well_tagged r
  | UnaryExpressionNode _ _ e => position e = Some "unary" /\ well_tagged e
  end.

(** The greatest of [start] and the orders of the operators; an order
    that is not set counts as 0. *)
Definition highest_order (start : Z) (ops : list OperatorInfo) : Z :=
  fold_left (fun acc o => Z.max acc (default 0 (OperatorInfo.n_order o))) ops start.

(** Occurrences of the id [k] among operators. *)
Definition occurrences (k : Z) (ops : list OperatorInfo) : Z :=
  Z.of_nat (length (List.filter (fun o => OperatorInfo.id o =? k) ops)).

(** What the bookkeeping of [tree_to_str] adds to the counters of an
    evaluator when it visits the operators [ops]. *)
Definition tallied (ops : list OperatorInfo) (s s' : ExpressionEvaluator.t) : Prop :=
  ExpressionEvaluator.operation_count s'
    = ExpressionEvaluator.operation_count s + Z.of_nat (length ops) /\
  ExpressionEvaluator.highest_n_order s'
    = highest_order (ExpressionEvaluator.highest_n_order s) ops /\
  (forall k, default 0 (ExpressionEvaluator.all_operators s' !! k)
             = default 0 (ExpressionEvaluator.all_operators s !! k) + occurrences k ops) /\
  (forall k, is_Some (ExpressionEvaluator.all_operators s' !! k) <->
             is_Some (ExpressionEvaluator.all_operators s !! k) \/
             k ∈ OperatorInfo.id <$> ops) /\
  (forall p, p ∈ ExpressionEvaluator.all_priority s' <->
             p ∈ ExpressionEvaluator.all_priority s \/
             Some p ∈ OperatorInfo.priority <$> ops) /\
  (NoDup (ExpressionEvaluator.all_priority s) ->
   NoDup (ExpressionEvaluator.all_priority s')) /\
  Forall (fun o => is_Some (OperatorInfo.n_order o)) ops.

(** Every order stored in the registry is at least 1. *)
Definition orders_positive (m : OperatorManager) : Prop :=
  forall k r n, OperatorManager.operators m !! k = Some r ->
                OperatorInfo.n_order (OperatorManager.deref m r) = Some n -> 1 <= n.

(** The order stored for a registered id. *)
Definition order_of (m : OperatorManager) (op_id : Z) : option Z :=
  match OperatorManager.operators m !! op_id with
  | Some r => OperatorInfo.n_order (OperatorManager.deref m r)
  | None => None
  end.

(** The ids a source text refers to: [re.findall(prefix + r"(\d+)", code)]
    read as integers, as [extract_op_dependencies] does. *)
Definition references (prefix : string) (code : option string) : list Z :=
  match code with
  | Some c => int_of_digits <$> findall_ids prefix c
  | None => []
  end.

Definition registeredb (m : OperatorManager) (op_id : Z) : bool :=
  bool_decide (is_Some (OperatorManager.operators m !! op_id)).

(** Keys, ids, dependency lists and embedded references agree: every
    operator is stored under its id, its dependency list holds exactly
    the other ids its compute source refers to, its count source refers
    to the counters of nothing else, and all of them are registered. *)
Definition consistentb (m : OperatorManager) : bool :=
  forallb (fun '(k, r) =>
    let o := OperatorManager.deref m r in
    (OperatorInfo.id o =? k) &&
    match OperatorInfo.dependencies o with
    | None => false
    | Some deps =>
        forallb (registeredb m) deps &&
        forallb (fun d => bool_decide (d ∈ k :: deps))
                (references "op_" (OperatorInfo.op_compute_func o)) &&
        forallb (fun d => bool_decide (d ∈ references "op_" (OperatorInfo.op_compute_func o)))
                deps &&
        forallb (fun d => bool_decide (d ∈ k :: deps))
                (references "op_count_" (OperatorInfo.op_count_func o))
    end)
  (map_to_list (OperatorManager.operators m)).

(** No dependency and no embedded reference names an unregistered id. *)
Definition no_danglingb (m : OperatorManager) : bool :=
  forallb (fun '(k, r) =>
    let o := OperatorManager.deref m r in
    forallb (registeredb m) (default [] (OperatorInfo.dependencies o)) &&
    forallb (registeredb m) (references "op_" (OperatorInfo.op_compute_func o)) &&
    forallb (registeredb m) (references "op_count_" (OperatorInfo.op_count_func o)))
  (map_to_list (OperatorManager.operators m)).

(** Id, dependencies and the two sources stored for a registered id. *)
Definition sources (m : OperatorManager) (op_id : Z)
    : option (Z * option (list Z) * option string * option string) :=
  match OperatorManager.operators m !! op_id with
  | Some r =>
      let o := OperatorManager.deref m r in
      Some (OperatorInfo.id o, OperatorInfo.dependencies o,
            OperatorInfo.op_compute_func o, OperatorInfo.op_count_func o)
  | None => None
  end.

(** [a] depends on [b]: an operator of [ops] with id [a] lists [b]. *)
Definition depends_on (ops : list OperatorInfo) (a b : Z) : Prop :=
  exists o deps, o ∈ ops /\ OperatorInfo.id o = a /\
                 OperatorInfo.dependencies o = Some deps /\ b ∈ deps.

(** The operators from which [x] can be reached along dependencies:
    [x] itself and whatever depends on one of them. *)
Inductive dependent_of (ops : list OperatorInfo) (x : Z) : Z -> Prop :=
| dependent_self : dependent_of ops x x
| dependent_step a b :
    dependent_of ops x b -> depends_on ops a b -> dependent_of ops x a.

Definition ids_of (ops : list OperatorInfo) : gset Z :=
  list_to_set (OperatorInfo.id <$> ops).

(** What a call of the search for dependents returns, in terms of the
    set it was given. *)
Definition search_result (ops : list OperatorInfo) (x : Z) (S S' : gset Z) : Prop :=
  S ⊆ S' /\ x ∈ S' /\ S' ⊆ S ∪ ids_of ops /\
  (forall y, y ∈ S' -> y ∈ S \/ dependent_of ops x y) /\
  (forall y a, y ∈ S' -> y ∉ S -> depends_on ops a y -> a ∈ S').

(** A registry as loading and [add_operator] build it, once every
    operator has its dependency list: each operator is stored under its
    own id, has a dependency list, and is listed under its symbol. *)
Record well_formed (m : OperatorManager) : Prop := {
  wf_ids : forall k r, OperatorManager.operators m !! k = Some r ->
                       OperatorInfo.id (OperatorManager.deref m r) = k;
  wf_deps : forall k r, OperatorManager.operators m !! k = Some r ->
      is_Some (OperatorInfo.dependencies (OperatorManager.deref m r));
  wf_symbols : forall k r, OperatorManager.operators m !! k = Some r ->
      exists l, OperatorManager.symbol_to_operators m
                  !! OperatorInfo.symbol (OperatorManager.deref m r) = Some l /\ r ∈ l
}.

(** The attributes the renumbering reads are set: the dependency list
    and both sources. *)
Definition has_sources (o : OperatorInfo) : Prop :=
  is_Some (OperatorInfo.dependencies o) /\
  is_Some (OperatorInfo.op_compute_func o) /\
  is_Some (OperatorInfo.op_count_func o).

(** Every operator is stored under its own id, a positive one, with its
    sources set. *)
Definition renumberable (m : OperatorManager) : Prop :=
  forall k r, OperatorManager.operators m !! k = Some r ->
    OperatorInfo.id (OperatorManager.deref m r) = k /\ 1 <= k /\
    has_sources (OperatorManager.deref m r).

(** ** Concrete registries, operators and trees used by the examples *)

Definition empty_registry : OperatorManager := OperatorManager.mk ∅ ∅ ∅ ∅ ∅.

(** A line of the seed file for a binary, left-associative operator. *)
Definition seed_data (id : Z) (symbol : string) (priority : Z) (code count : string)
    (deps : list Z) : list (string * json) :=
  [ ("id", JInt id); ("symbol", JStr symbol); ("n_ary", JInt 2);
    ("unary_position", JNull); ("is_base", JNull); ("definition", JNull);
    ("definition_type", JNull); ("priority", JInt priority);
    ("associativity_direction", JStr "left"); ("n_order", JNull);
    ("op_compute_func", JStr code); ("op_count_func", JStr count);
    ("properties", JNull); ("dependencies", JList (map JInt deps)) ].

(** The seed operator 3, unary minus. *)
Definition negation_data : list (string * json) :=
  [ ("id", JInt 3); ("symbol", JStr "-"); ("n_ary", JInt 1);
    ("unary_position", JStr "prefix"); ("is_base", JNull); ("definition", JNull);
    ("definition_type", JNull); ("priority", JInt 3);
    ("associativity_direction", JStr "left"); ("n_order", JNull);
    ("op_compute_func", JStr "def op_3(a): return -a");
    ("op_count_func", JStr "def op_count_3(a): return 1");
    ("properties", JNull); ("dependencies", JList []) ].

(** The data [generate_base_operators] passes to [add_operator] for the
    base [n] and the symbol it drew. *)
Definition base_operator_data (n : Z) (op_symbol : string) : list (string * json) :=
  [ ("id", JNull); ("symbol", JStr op_symbol); ("n_ary", JInt 1);
    ("unary_position", JStr "prefix"); ("is_base", JInt n);
    ("definition", JNull); ("definition_type", JNull); ("priority", JNull);
    ("associativity_direction", JNull); ("n_order", JNull);
    ("op_compute_func", JNull); ("op_count_func", JNull);
    ("properties", JNull); ("dependencies", JNull); ("is_temporary", JBool false) ].

(** [+] (id 1) and [*] (id 4, not recursive, depending on 1). *)
Definition plus_times_registry : OperatorManager :=
  (( OperatorManager.add_operator
       (seed_data 1 "+" 1 "def op_1(a, b): return a + b"
                          "def op_count_1(a, b): return 1" []) ;;
     OperatorManager.add_operator
       (seed_data 4 "*" 2 "def op_4(a, b): return a * b"
                          "def op_count_4(a, b): return min(abs(a), abs(b))" [1]) ;;
     ret tt ) empty_registry).2.

(** The base operator of base 2 alone. *)
Definition base_two_registry : OperatorManager :=
  (OperatorManager.add_operator (base_operator_data 2 "#") empty_registry).2.

(** [+] (id 1) followed by the base operator of base 2 (id 2). *)
Definition plus_and_base_registry : OperatorManager :=
  (( OperatorManager.add_operator
       (seed_data 1 "+" 1 "def op_1(a, b): return a + b"
                          "def op_count_1(a, b): return 1" []) ;;
     OperatorManager.add_operator (base_operator_data 2 "#") ;;
     ret tt ) empty_registry).2.

(** Twenty-one operators with the ids 1..21: 3..19 call operator 1,
    operator 21 calls 2 and 20. *)
Definition caller_data (k : Z) : list (string * json) :=
  seed_data k ("c" ++ str_of_int k) 1
    ("def op_" ++ str_of_int k ++ "(a, b): return op_1(a, b)")
    ("def op_count_" ++ str_of_int k ++ "(a, b): return op_count_1(a, b)") [1].

Definition dense_registry : OperatorManager :=
  (( OperatorManager.add_operator
       (seed_data 1 "+" 1 "def op_1(a, b): return a + b"
                          "def op_count_1(a, b): return 1" []) ;;
     OperatorManager.add_operator
       (seed_data 2 "-" 1 "def op_2(a, b): return a - b"
                          "def op_count_2(a, b): return 1" []) ;;
     for_each (seqZ 3 17)
       (fun k => OperatorManager.add_operator (caller_data k) ;; ret tt) ;;
     OperatorManager.add_operator
       (seed_data 20 "*" 2 "def op_20(a, b): return a * b"
                           "def op_count_20(a, b): return 1" []) ;;
     OperatorManager.add_operator
       (seed_data 21 "@" 2
          "def op_21(a, b): return op_2(op_20(a, b), b)"
          "def op_count_21(a, b): return op_count_2(a, b) + op_count_20(a, b)"
          [2; 20]) ;;
     ret tt ) empty_registry).2.

(** Compiled procedures of some seed operators. *)
Definition op_1 : pyfunc := fun args =>
  match args with
  | [PInt a; PInt b] => Ok (PInt (a + b))
  | [_; _] => Ok NaN
  | _ => Raise (TypeError "op_1() takes 2 positional arguments")
  end.
Definition op_count_1 : pyfunc := fun args =>
  match args with
  | [PInt _; PInt _] => Ok (PInt 1)
  | [_; _] => Ok NaN
  | _ => Raise (TypeError "op_count_1() takes 2 positional arguments")
  end.
Definition op_4 : pyfunc := fun args =>
  match args with
  | [PInt a; PInt b] => Ok (PInt (a * b))
  | [_; _] => Ok NaN
  | _ => Raise (TypeError "op_4() takes 2 positional arguments")
  end.
Definition op_count_4 : pyfunc := fun args =>
  match args with
  | [PInt a; PInt b] => Ok (PInt (Z.min (Z.abs a) (Z.abs b)))
  | [_; _] => Ok NaN
  | _ => Raise (TypeError "op_count_4() takes 2 positional arguments")
  end.

(** Floor division, seed operator 5: ['NaN'] on a ['NaN'] operand or a
    zero divisor, for the value and for the count. *)
Definition op_5 : pyfunc := fun args =>
  match args with
  | [PInt a; PInt b] => if b =? 0 then Ok NaN else Ok (PInt (a / b))
  | [_; _] => Ok NaN
  | _ => Raise (TypeError "op_5() takes 2 positional arguments")
  end.
Definition op_count_5 : pyfunc := fun args =>
  match args with
  | [PInt a; PInt b] => if b =? 0 then Ok NaN else Ok (PInt (Z.abs a / Z.abs b))
  | [_; _] => Ok NaN
  | _ => Raise (TypeError "op_count_5() takes 2 positional arguments")
  end.

(** A unary reciprocal in the same style: ['NaN'] at zero. *)
Definition op_7 : pyfunc := fun args =>
  match args with
  | [PInt a] => if a =? 0 then Ok NaN else Ok (PInt (1 / a))
  | [_] => Ok NaN
  | _ => Raise (TypeError "op_7() takes 1 positional argument")
  end.
Definition op_count_7 : pyfunc := fun args =>
  match args with
  | [PInt a] => if a =? 0 then Ok NaN else Ok (PInt 1)
  | [_] => Ok NaN
  | _ => Raise (TypeError "op_count_7() takes 1 positional argument")
  end.

Definition plus : OperatorInfo :=
  OperatorInfo.mk 1 "+" 2 None None None None (Some 1) (Some "left") (Some 1)
    (Some "def op_1(a, b): ...") (Some "def op_count_1(a, b): ...") None None (Some [])
    false 0 true (<["op_1" := op_1]> (<["op_count_1" := op_count_1]> ∅)).

Definition times : OperatorInfo :=
  OperatorInfo.mk 4 "*" 2 None None None None (Some 2) (Some "left") (Some 1)
    (Some "def op_4(a, b): ...") (Some "def op_count_4(a, b): ...") None None (Some [1])
    false 0 true (<["op_4" := op_4]> (<["op_count_4" := op_count_4]> ∅)).

Definition division : OperatorInfo :=
  OperatorInfo.mk 5 "/" 2 None None None None (Some 2) (Some "left") (Some 1)
    (Some "def op_5(a, b): ...") (Some "def op_count_5(a, b): ...") None None (Some [2])
    false 0 true (<["op_5" := op_5]> (<["op_count_5" := op_count_5]> ∅)).

Definition reciprocal : OperatorInfo :=
  OperatorInfo.mk 7 "~" 1 (Some "postfix") None None None (Some 3) (Some "left") (Some 1)
    (Some "def op_7(a): ...") (Some "def op_count_7(a): ...") None None (Some [])
    false 0 true (<["op_7" := op_7]> (<["op_count_7" := op_count_7]> ∅)).

(** Nothing compiles: every procedure comes from the cache. *)
Definition no_exec : string -> string -> option pyfunc := fun _ _ => None.

(** [(2 + 3) * 5], [7 / 0], [(0)~] and [8 + 1]. *)
Definition two_plus_three : ExpressionNode :=
  BinaryExpressionNode (Some "left") plus
    (NumberNode (Some "left") 2 10) (NumberNode (Some "right") 3 10).
Definition two_plus_three_times_five : ExpressionNode :=
  BinaryExpressionNode None times two_plus_three (NumberNode (Some "right") 5 10).
Definition seven_by_zero : ExpressionNode :=
  BinaryExpressionNode None division
    (NumberNode (Some "left") 7 10) (NumberNode (Some "right") 0 10).
Definition reciprocal_of_zero : ExpressionNode :=
  UnaryExpressionNode None reciprocal (NumberNode (Some "unary") 0 10).
Definition eight_plus_one : ExpressionNode :=
  BinaryExpressionNode None plus
    (NumberNode (Some "left") 8 10) (NumberNode (Some "right") 1 10).

(** An evaluator as [__init__] leaves it. *)
Definition new_evaluator : ExpressionEvaluator.t :=
  ExpressionEvaluator.mk None None None None None [] 0 0 ∅ false
    (<["left_bracket" := "("]> (<["right_bracket" := ")"]>
       (<["NaN" := "NaN"]> (<["equal" := "="]> ∅))))
    None None.

(** A generator whose only operator is postfix and whose weights always
    draw the postfix category. *)
Definition postfix_only : ExpressionGenerator.t :=
  ExpressionGenerator.mk ["a"] 100 0 3
    (<["binary" := 0%nat]> (<["unary_prefix" := 0%nat]>
       (<["unary_postfix" := 1%nat]> (<["atoms" := 0%nat]> ∅))))
    10 [] [reciprocal] [] (<["variable" := 1%nat]> (<["number" := 1%nat]> ∅))
    [0; 0; 5; 8]%nat.

(** An operator generator over a registry that holds unary minus only. *)
Definition minus_only : OperatorGenerator.t :=
  OperatorGenerator.mk
    (OperatorManager.add_operator negation_data empty_registry).2
    [0; 0; 0; 0; 0; 0]%nat ["a"] ["a"] ["@"; "%"] ["a"] ["a"; "b"] 1 1
    "a" "b" "(" ")".

(* ================================================================== *)
(** * Part II.  Lemmas and theorems                                    *)
(* ================================================================== *)

(* The set solvers clear hypotheses that may be gone already. *)
#[local] Set Warnings "-clear-no-such-hyp".

(** *** A small logic for stateful code: relations kept by every run *)

Section preserves_rules.
Context {S : Type} (R : S -> S -> Prop) `{!PreOrder R}.

Lemma preserves_ret {A} (a : A) : preserves R (ret a).
Proof. intros s r s' [= <- <-]. reflexivity. Qed.

Lemma preserves_raise {A} e : preserves R (@raise S A e).
Proof. intros s r s' [= <- <-]. reflexivity. Qed.

Lemma preserves_lift {A} (x : result A) : preserves R (lift x).
Proof. intros s r s' [= <- <-]. reflexivity. Qed.

Lemma preserves_get : preserves R get.
Proof. intros s r s' [= <- <-]. reflexivity. Qed.

Lemma preserves_modify f : (forall s, R s (f s)) -> preserves R (modify f).
Proof. intros Hf s r s' [= <- <-]. apply Hf. Qed.

Lemma preserves_bind {A B} (m : M S A) (k : A -> M S B) :
  preserves R m -> (forall a, preserves R (k a)) -> preserves R (bind m k).
Proof.
  intros Hm Hk s r s'. unfold bind.
  destruct (m s) as [[a|e|] s1] eqn:H1.
  - intros H2. transitivity s1; [eapply Hm | eapply Hk]; eauto.
  - intros [= <- <-]. eapply Hm; eauto.
  - intros [= <- <-]. eapply Hm; eauto.
Qed.

Lemma preserves_for_each {A} (xs : list A) (body : A -> M S unit) :
  (forall x, preserves R (body x)) -> preserves R (for_each xs body).
Proof.
  intros Hb. induction xs as [|x xs IH]; simpl.
  - apply preserves_ret.
  - apply preserves_bind; auto.
Qed.
End preserves_rules.

(** Breaks a computation along its binds and branches, leaving the calls
    that need a lemma of their own. *)
Ltac preserves_step :=
  first
    [ apply preserves_ret; tc_solve | apply preserves_raise; tc_solve
    | apply preserves_lift; tc_solve | apply preserves_get; tc_solve
    | apply preserves_bind; [tc_solve | | intros ?]
    | match goal with
      | |- preserves _ (if ?c then _ else _) => destruct c
      | |- preserves _ (match ?x with _ => _ end) => destruct x
      | |- preserves _ (let '(_, _) := ?x in _) => destruct x
      end ].

(** *** Persistence of operator records *)

Lemma kwarg_bound {A} name (conv : json -> result A) dflt data j :
  assoc name data = Some j -> OperatorInfo.kwarg name conv dflt data = conv j.
Proof. intros H. unfold OperatorInfo.kwarg. now rewrite H. Qed.

Lemma kwarg_default {A} name (conv : json -> result A) d data :
  assoc name data = None -> OperatorInfo.kwarg name conv (Some d) data = Ok d.
Proof. intros H. unfold OperatorInfo.kwarg. now rewrite H. Qed.

Lemma as_opt_str_of_opt (x : option string) : as_opt as_str (of_opt JStr x) = Ok x.
Proof. now destruct x. Qed.

Lemma as_opt_int_of_opt (x : option Z) : as_opt as_int (of_opt JInt x) = Ok x.
Proof. now destruct x. Qed.

Lemma as_all_int_map (l : list Z) : as_all as_int (map JInt l) = Ok l.
Proof. induction l as [|z l IH]; simpl; [done|]. now rewrite IH. Qed.

Lemma as_opt_ints_of_opt (x : option (list Z)) :
  as_opt (as_list as_int) (of_opt (fun l => JList (map JInt l)) x) = Ok x.
Proof. destruct x as [l|]; simpl; [|done]. now rewrite as_all_int_map. Qed.

Lemma to_json_document (op : OperatorInfo) :
  OperatorInfo.to_json op = Ok
    [ ("id", JInt (OperatorInfo.id op));
      ("symbol", JStr (OperatorInfo.symbol op));
      ("n_ary", JInt (OperatorInfo.n_ary op));
      ("unary_position", of_opt JStr (OperatorInfo.unary_position op));
      ("is_base", of_opt JInt (OperatorInfo.is_base op));
      ("definition", of_opt JStr (OperatorInfo.definition op));
      ("definition_type", of_opt JStr (OperatorInfo.definition_type op));
      ("priority", of_opt JInt (OperatorInfo.priority op));
      ("associativity_direction", of_opt JStr (OperatorInfo.associativity_direction op));
      ("n_order", of_opt JInt (OperatorInfo.n_order op));
      ("op_compute_func", of_opt JStr (OperatorInfo.op_compute_func op));
      ("op_count_func", of_opt JStr (OperatorInfo.op_count_func op));
      ("z3_compute_func", of_opt JStr (OperatorInfo.z3_compute_func op));
      ("dependencies", of_opt (fun l => JList (map JInt l)) (OperatorInfo.dependencies op)) ].
Proof. reflexivity. Qed.

(** C9. Loading what [to_json] saved gives back every persisted field of
    the record, while [is_temporary], [recursive_used_cases],
    [is_recursion_enabled] and [properties] (and the cache of compiled
    procedures) come back at the constructor's defaults [False], [0],
    [True] and [None], whatever they were before saving. *)
Theorem from_json_to_json (op : OperatorInfo) :
  exists doc,
    OperatorInfo.to_json op = Ok doc /\
    OperatorInfo.from_json doc =
      Ok (OperatorInfo.mk
            (OperatorInfo.id op) (OperatorInfo.symbol op) (OperatorInfo.n_ary op)
            (OperatorInfo.unary_position op) (OperatorInfo.is_base op)
            (OperatorInfo.definition op) (OperatorInfo.definition_type op)
            (OperatorInfo.priority op) (OperatorInfo.associativity_direction op)
            (OperatorInfo.n_order op) (OperatorInfo.op_compute_func op)
            (OperatorInfo.op_count_func op) (OperatorInfo.z3_compute_func op)
            None (OperatorInfo.dependencies op) false 0 true ∅).
Proof.
  eexists. split; [apply to_json_document|].
  unfold OperatorInfo.from_json, OperatorInfo.init.
  change (negb (forallb _ _)) with false. cbv iota.
  repeat (first [ erewrite kwarg_bound by reflexivity
                | erewrite kwarg_default by reflexivity ];
          rewrite ?as_opt_str_of_opt, ?as_opt_int_of_opt, ?as_opt_ints_of_opt;
          cbn [rbind as_int as_str]).
  reflexivity.
Qed.
Section recursion_safety.
Import OperatorGenerator.

(** *** The recursion-usage bitmask *)

Lemma testbit_one_shifted (b i : Z) :
  0 <= b -> Z.testbit (Z.shiftl 1 b) i = (b =? i).
Proof. intros Hb. rewrite Z.shiftl_1_l. now apply Z.pow2_bits_eqb. Qed.

Lemma land_bit_zero (m b : Z) :
  0 <= b -> (Z.land m (Z.shiftl 1 b) =? 0) = negb (Z.testbit m b).
Proof.
  intros Hb. destruct (Z.testbit m b) eqn:Hm; simpl.
  - apply Z.eqb_neq. intros H0.
    assert (Z.testbit (Z.land m (Z.shiftl 1 b)) b = true) as Ht.
    { rewrite Z.land_spec, Hm, testbit_one_shifted, Z.eqb_refl; done. }
    rewrite H0, Z.bits_0 in Ht. discriminate.
  - apply Z.eqb_eq, Z.bits_inj'. intros i _.
    rewrite Z.land_spec, Z.bits_0, testbit_one_shifted by done.
    destruct (Z.eqb_spec b i) as [->|]; [now rewrite Hm | apply andb_false_r].
Qed.

Lemma lor_bit_testbit (m b i : Z) :
  0 <= b -> Z.testbit (Z.lor m (Z.shiftl 1 b)) i = Z.testbit m i || (b =? i).
Proof. intros Hb. now rewrite Z.lor_spec, testbit_one_shifted. Qed.

(** What one call of [set_bit_if_not_set] does to the called operator. *)
Lemma set_bit_if_not_set_spec (bit : Z) (called : OperatorInfo) :
  0 <= bit ->
  let mask := OperatorInfo.recursive_used_cases called in
  if Z.testbit mask bit
  then set_bit_if_not_set bit called = (Ok false, called)
  else exists called',
      set_bit_if_not_set bit called = (Ok true, called') /\
      OperatorInfo.recursive_used_cases called' = Z.lor mask (Z.shiftl 1 bit) /\
      OperatorInfo.n_ary called' = OperatorInfo.n_ary called /\
      OperatorInfo.is_recursion_enabled called' =
        (if ((OperatorInfo.n_ary called =? 1) && (Z.lor mask (Z.shiftl 1 bit) =? 3))
            || ((OperatorInfo.n_ary called =? 2) && (Z.lor mask (Z.shiftl 1 bit) =? 255))
         then false else OperatorInfo.is_recursion_enabled called).
Proof.
  intros Hb mask. unfold set_bit_if_not_set.
  destruct (Z.ltb_spec bit 0) as [|_]; [lia|].
  unfold bind, get, modify, ret; cbn beta iota.
  rewrite land_bit_zero by done. fold mask.
  destruct (Z.testbit mask bit); cbn [negb]; [reflexivity|].
  cbn [OperatorInfo.n_ary OperatorInfo.recursive_used_cases
       OperatorInfo.set_recursive_used_cases].
  destruct (Z.eqb_spec (OperatorInfo.n_ary called) 1) as [E1|E1]; cbn [andb orb].
  - rewrite E1. change (1 =? 2) with false. cbn [andb orb].
    destruct (Z.lor mask (Z.shiftl 1 bit) =? 3) eqn:H3;
      eexists; (split; [reflexivity|]); simpl; rewrite ?orb_false_r; auto.
  - destruct (OperatorInfo.n_ary called =? 2) eqn:H2; cbn [andb orb].
    + destruct (Z.lor mask (Z.shiftl 1 bit) =? 255) eqn:H3;
        eexists; (split; [reflexivity|]); simpl; auto.
    + eexists; (split; [reflexivity|]); simpl; auto.
Qed.

Lemma set_bit_if_not_set_negative (bit : Z) (called : OperatorInfo) :
  bit < 0 -> set_bit_if_not_set bit called = (Raise (ValueError "negative shift count"), called).
Proof. intros Hb. unfold set_bit_if_not_set. destruct (Z.ltb_spec bit 0); [done|lia]. Qed.

Lemma no_bit_lost_refl o : no_bit_lost o o.
Proof. split; auto. Qed.

Lemma set_bit_if_not_set_no_bit_lost bit called r called' :
  set_bit_if_not_set bit called = (r, called') -> no_bit_lost called called'.
Proof.
  intros H. destruct (Z.lt_ge_cases bit 0) as [Hn|Hp].
  - rewrite set_bit_if_not_set_negative in H by done.
    injection H as _ <-. apply no_bit_lost_refl.
  - pose proof (set_bit_if_not_set_spec bit called Hp) as Hs. simpl in Hs.
    destruct (Z.testbit _ bit).
    + rewrite Hs in H. injection H as _ <-. apply no_bit_lost_refl.
    + destruct Hs as (c & Hc & Hm & _ & He). rewrite Hc in H. injection H as _ <-.
      split.
      * intros i Hi. rewrite Hm, lor_bit_testbit, Hi by done. reflexivity.
      * intros Hd. rewrite He, Hd. now destruct (_ || _).
Qed.

Lemma check_and_set_recursion_validity_no_bit_lost lo ro op_type param_order called r called' :
  check_and_set_recursion_validity lo ro op_type param_order called = (r, called') ->
  no_bit_lost called called'.
Proof.
  unfold check_and_set_recursion_validity, bind at 1, get at 1.
  assert (forall bit,
    (let* b := set_bit_if_not_set bit in ret (Some b)) called = (r, called') ->
    no_bit_lost called called') as Hset.
  { intros bit. unfold bind, ret.
    destruct (set_bit_if_not_set bit called) as [[b| |] c] eqn:Hc; intros [= <- <-];
      eapply set_bit_if_not_set_no_bit_lost; eauto. }
  repeat match goal with
         | |- (if ?c then _ else _) _ = _ -> _ => destruct c
         end; eauto; intros [= <- <-]; apply no_bit_lost_refl.
Qed.

(** The bit each parameter routing of a binary caller requests from a
    binary callee is its rank in the list the routing is drawn from. *)
Lemma check_binary_on_binary lo ro (k : nat) po called :
  lo <> "result" -> ro <> "result" -> lo <> ro ->
  OperatorInfo.n_ary called = 2 ->
  [("result", "result"); ("result", lo); ("result", ro); (lo, "result"); (ro, "result")]
    !! k = Some po ->
  check_and_set_recursion_validity lo ro "binary" (Some po) called =
    (let* b := set_bit_if_not_set (Z.of_nat k) in ret (Some b)) called.
Proof.
  intros H1 H2 H3 Hn Hk. unfold check_and_set_recursion_validity, bind at 1, get at 1.
  rewrite Hn. cbn [String.eqb Ascii.eqb Bool.eqb Z.eqb Pos.eqb andb].
  destruct k as [|[|[|[|[|k]]]]]; simpl in Hk; try discriminate;
    injection Hk as <-;
    repeat case_bool_decide; simplify_eq; reflexivity.
Qed.

Lemma check_binary_on_unary lo ro called :
  OperatorInfo.n_ary called = 1 ->
  check_and_set_recursion_validity lo ro "binary" None called =
    (let* b := set_bit_if_not_set 0 in ret (Some b)) called.
Proof.
  intros Hn. unfold check_and_set_recursion_validity, bind at 1, get at 1.
  rewrite Hn. reflexivity.
Qed.

Lemma set_tape_same g : set_tape (tape g) g = g.
Proof. now destruct g. Qed.

Lemma rand_frame {A} (c : M (list nat) A) g r g' :
  rand c g = (r, g') -> g' = set_tape (tape g') g.
Proof. unfold rand. destruct (c (tape g)) as [a t']. intros [= <- <-]. reflexivity. Qed.

Lemma random_operator_frame fuel syms g r g' :
  random_operator fuel syms g = (r, g') -> g' = set_tape (tape g') g.
Proof.
  revert g r g'. induction fuel as [|fuel IH]; intros g r g'; simpl.
  - intros [= <- <-]. symmetry. apply set_tape_same.
  - unfold bind at 1, get at 1. unfold bind at 1.
    destruct (rand _ g) as [[len| |] g1] eqn:H1;
      try (intros [= <- <-]; now apply rand_frame in H1).
    unfold bind at 1.
    destruct (rand _ g1) as [[sym| |] g2] eqn:H2.
    2,3: intros [= <- <-]; apply rand_frame in H1, H2; rewrite H2, H1; reflexivity.
    apply rand_frame in H1, H2.
    case_bool_decide.
    + intros H3. apply IH in H3. rewrite H3, H2, H1. reflexivity.
    + intros [= <- <-]. rewrite H2, H1. reflexivity.
Qed.

Lemma get_random_recursive_call_operator_frame g r g' :
  get_random_recursive_call_operator g = (r, g') -> g' = set_tape (tape g') g.
Proof.
  unfold get_random_recursive_call_operator, bind at 1, get at 1.
  destruct (map_to_list _) as [|kr items].
  { intros [= <- <-]. symmetry. apply set_tape_same. }
  destruct (filter _ _) as [|x xs].
  { intros [= <- <-]. symmetry. apply set_tape_same. }
  unfold bind. destruct (rand _ g) as [[a| |] g1] eqn:H1; intros [= <- <-];
    now apply rand_frame in H1.
Qed.

Lemma deref_update_object m r f r' :
  OperatorManager.deref (OperatorManager.update_object r f m) r' =
    if decide (r = r') then f (OperatorManager.deref m r) else OperatorManager.deref m r'.
Proof.
  unfold OperatorManager.deref, OperatorManager.update_object; simpl.
  destruct (decide (r = r')) as [->|Hne].
  - apply lookup_total_insert_eq.
  - now apply lookup_total_insert_ne.
Qed.


#[export] Instance no_bit_lost_preorder : PreOrder no_bit_lost.
Proof.
  split.
  - intros o. apply no_bit_lost_refl.
  - intros a b c [H1 H2] [H3 H4]. split; auto.
Qed.

#[export] Instance registry_no_bit_lost_preorder : PreOrder registry_no_bit_lost.
Proof.
  split.
  - intros g r. reflexivity.
  - intros a b c H1 H2 r. etransitivity; [apply H1 | apply H2].
Qed.

Lemma rand_keeps_registry {A} (c : M (list nat) A) : preserves registry_no_bit_lost (rand c).
Proof. intros g r g' H. apply rand_frame in H. rewrite H. intros ref. reflexivity. Qed.

Lemma random_operator_keeps_registry fuel syms :
  preserves registry_no_bit_lost (random_operator fuel syms).
Proof. intros g r g' H. apply random_operator_frame in H. rewrite H. intros ref. reflexivity. Qed.

Lemma get_random_recursive_call_operator_keeps_registry :
  preserves registry_no_bit_lost get_random_recursive_call_operator.
Proof.
  intros g r g' H. apply get_random_recursive_call_operator_frame in H.
  rewrite H. intros ref. reflexivity.
Qed.

Lemma generate_lhs_keeps_registry sym ty pos :
  preserves registry_no_bit_lost (generate_lhs sym ty pos).
Proof. unfold generate_lhs. repeat preserves_step. Qed.

Lemma check_on_callee_keeps_registry called lo ro ty po :
  preserves registry_no_bit_lost
    (on_manager (on_object called (check_and_set_recursion_validity lo ro ty po))).
Proof.
  intros g r g'. unfold on_manager, on_object.
  destruct (check_and_set_recursion_validity _ _ _ _ _) as [a o'] eqn:Hc.
  intros [= <- <-] ref. simpl. rewrite deref_update_object.
  destruct (decide (called = ref)) as [<-|]; [|reflexivity].
  eapply check_and_set_recursion_validity_no_bit_lost; eauto.
Qed.

Lemma generate_recursive_operator_data_by_loop_keeps_registry fuel :
  preserves registry_no_bit_lost (generate_recursive_operator_data_by_loop fuel).
Proof.
  unfold generate_recursive_operator_data_by_loop.
  repeat first
    [ apply random_operator_keeps_registry
    | apply get_random_recursive_call_operator_keeps_registry
    | apply generate_lhs_keeps_registry
    | apply check_on_callee_keeps_registry
    | apply rand_keeps_registry
    | apply preserves_modify; intros ? ?; reflexivity
    | preserves_step ].
Qed.

Lemma on_callee_bit_set g called lo ro ty po bit :
  0 <= bit ->
  check_and_set_recursion_validity lo ro ty po
      (OperatorManager.deref (operator_manager g) called) =
    (let* b := set_bit_if_not_set bit in ret (Some b))
      (OperatorManager.deref (operator_manager g) called) ->
  Z.testbit (OperatorInfo.recursive_used_cases
               (OperatorManager.deref (operator_manager g) called)) bit = true ->
  exists g',
    on_manager (on_object called (check_and_set_recursion_validity lo ro ty po)) g
      = (Ok (Some false), g') /\
    forall r, OperatorManager.deref (operator_manager g') r
              = OperatorManager.deref (operator_manager g) r.
Proof.
  intros Hb Hc Hset. unfold on_manager, on_object. rewrite Hc.
  pose proof (set_bit_if_not_set_spec bit
    (OperatorManager.deref (operator_manager g) called) Hb) as Hs. simpl in Hs.
  rewrite Hset in Hs. unfold bind, ret. rewrite Hs.
  eexists. split; [reflexivity|]. intros r. simpl.
  rewrite deref_update_object. now destruct (decide (called = r)) as [->|].
Qed.

Lemma generate_rejects_used_bit fuel g sym g1 called g2 :
  random_operator fuel (OperatorManager.get_operator_symbols (operator_manager g)) g
    = (Ok sym, g1) ->
  get_random_recursive_call_operator
    (set_expr_generator_variables (binary_variables g)
       (set_condition_generator_variables (binary_variables g) g1)) = (Ok called, g2) ->
  let callee := OperatorManager.deref (operator_manager g2) called in
  let lo := left_operand g2 in
  let ro := right_operand g2 in
  (OperatorInfo.n_ary callee = 1 ->
   Z.testbit (OperatorInfo.recursive_used_cases callee) 0 = true ->
   exists g', generate_recursive_operator_data_by_loop fuel g = (Ok None, g') /\
     forall r, OperatorManager.deref (operator_manager g') r
               = OperatorManager.deref (operator_manager g) r) /\
  (OperatorInfo.n_ary callee = 2 ->
   lo <> "result" -> ro <> "result" -> lo <> ro ->
   forall (k : nat) po g3,
     rand (Random.choice [("result", "result"); ("result", lo); ("result", ro);
                          (lo, "result"); (ro, "result")]) g2 = (Ok po, g3) ->
     [("result", "result"); ("result", lo); ("result", ro); (lo, "result"); (ro, "result")]
       !! k = Some po ->
     Z.testbit (OperatorInfo.recursive_used_cases callee) (Z.of_nat k) = true ->
     exists g', generate_recursive_operator_data_by_loop fuel g = (Ok None, g') /\
       forall r, OperatorManager.deref (operator_manager g') r
                 = OperatorManager.deref (operator_manager g) r).
Proof.
  intros H1 H2 callee lo ro.
  pose proof (random_operator_frame _ _ _ _ _ H1) as F1.
  pose proof (get_random_recursive_call_operator_frame _ _ _ H2) as F2.
  assert (forall r, OperatorManager.deref (operator_manager g2) r
                    = OperatorManager.deref (operator_manager g) r) as Hsame.
  { intros r. rewrite F2. simpl. rewrite F1. reflexivity. }
  split.
  - intros Hn Hbit.
    destruct (on_callee_bit_set g2 called lo ro "binary" None 0) as (g' & Hg' & Hd); auto.
    { lia. } { now apply check_binary_on_unary. }
    exists g'. split; [|intros r; now rewrite Hd].
    unfold generate_recursive_operator_data_by_loop.
    unfold bind at 1, get at 1. unfold bind at 1. rewrite H1.
    unfold bind at 1, modify at 1. unfold bind at 1, modify at 1.
    unfold bind at 1, get at 1. unfold bind at 1. rewrite H2.
    unfold bind at 1, get at 1. unfold bind at 1, generate_lhs at 1.
    unfold bind at 1, get at 1. cbn [String.eqb Ascii.eqb Bool.eqb]. unfold ret at 1.
    fold callee. rewrite Hn. change (1 =? 2) with false. change (1 =? 1) with true.
    cbv iota. unfold bind at 1. fold lo ro. rewrite Hg'. reflexivity.
  - intros Hn Hlo Hro Hlr k po g3 H3 Hk Hbit.
    pose proof (rand_frame _ _ _ _ H3) as F3.
    assert (OperatorManager.deref (operator_manager g3) called = callee) as Hc3.
    { rewrite F3. reflexivity. }
    destruct (on_callee_bit_set g3 called lo ro "binary" (Some po) (Z.of_nat k))
      as (g' & Hg' & Hd); auto.
    { lia. } { rewrite Hc3. now apply check_binary_on_binary. } { now rewrite Hc3. }
    exists g'. split; [|intros r; rewrite Hd, F3; apply Hsame].
    unfold generate_recursive_operator_data_by_loop.
    unfold bind at 1, get at 1. unfold bind at 1. rewrite H1.
    unfold bind at 1, modify at 1. unfold bind at 1, modify at 1.
    unfold bind at 1, get at 1. unfold bind at 1. rewrite H2.
    unfold bind at 1, get at 1. unfold bind at 1, generate_lhs at 1.
    unfold bind at 1, get at 1. cbn [String.eqb Ascii.eqb Bool.eqb]. unfold ret at 1.
    fold callee. rewrite Hn. change (2 =? 2) with true.
    cbv iota. unfold bind at 1. fold lo ro. rewrite H3.
    destruct po as [p1 p2]. unfold bind at 1. rewrite Hg'. reflexivity.
Qed.

(** C6. The recursion-usage mask only gains bits and the recursion flag
    never comes back, under [set_bit_if_not_set], under
    [check_and_set_recursion_validity] and, for every object of the
    registry, under [generate_recursive_operator_data_by_loop].
    [set_bit_if_not_set] on a bit that is already set returns [False] and
    leaves the operator as it was; when it sets the bit that brings the
    mask of a unary operator to [0b11], or of a binary operator to
    [0b11111111], the flag is cleared.  When the callee drawn by
    [generate_recursive_operator_data_by_loop] has the requested bit set
    already (bit 0 of a unary callee; of a binary callee the bit whose
    number is the rank of the drawn parameter routing), no record is
    returned and the registry objects are as before. *)
Theorem recursion_bitmask_saturation :
  (forall bit called r called',
     set_bit_if_not_set bit called = (r, called') ->
     no_bit_lost called called' /\
     (0 <= bit ->
      Z.testbit (OperatorInfo.recursive_used_cases called) bit = true ->
      r = Ok false /\ called' = called) /\
     (r = Ok true ->
      (OperatorInfo.n_ary called' = 1 /\ OperatorInfo.recursive_used_cases called' = 3) \/
      (OperatorInfo.n_ary called' = 2 /\ OperatorInfo.recursive_used_cases called' = 255) ->
      OperatorInfo.is_recursion_enabled called' = false)) /\
  (forall lo ro op_type param_order called r called',
     check_and_set_recursion_validity lo ro op_type param_order called = (r, called') ->
     no_bit_lost called called') /\
  (forall fuel g out g',
     generate_recursive_operator_data_by_loop fuel g = (out, g') ->
     registry_no_bit_lost g g') /\
  (forall fuel g sym g1 called g2,
     random_operator fuel (OperatorManager.get_operator_symbols (operator_manager g)) g
       = (Ok sym, g1) ->
     get_random_recursive_call_operator
       (set_expr_generator_variables (binary_variables g)
          (set_condition_generator_variables (binary_variables g) g1)) = (Ok called, g2) ->
     let callee := OperatorManager.deref (operator_manager g2) called in
     let lo := left_operand g2 in
     let ro := right_operand g2 in
     (OperatorInfo.n_ary callee = 1 ->
      Z.testbit (OperatorInfo.recursive_used_cases callee) 0 = true ->
      exists g', generate_recursive_operator_data_by_loop fuel g = (Ok None, g') /\
        forall r, OperatorManager.deref (operator_manager g') r
                  = OperatorManager.deref (operator_manager g) r) /\
     (OperatorInfo.n_ary callee = 2 ->
      lo <> "result" -> ro <> "result" -> lo <> ro ->
      forall (k : nat) po g3,
        rand (Random.choice [("result", "result"); ("result", lo); ("result", ro);
                             (lo, "result"); (ro, "result")]) g2 = (Ok po, g3) ->
        [("result", "result"); ("result", lo); ("result", ro); (lo, "result"); (ro, "result")]
          !! k = Some po ->
        Z.testbit (OperatorInfo.recursive_used_cases callee) (Z.of_nat k) = true ->
        exists g', generate_recursive_operator_data_by_loop fuel g = (Ok None, g') /\
          forall r, OperatorManager.deref (operator_manager g') r
                    = OperatorManager.deref (operator_manager g) r)).
Proof.
  split; [|split; [|split]].
  - intros bit called r called' Hrun.
    split; [eapply set_bit_if_not_set_no_bit_lost; eauto|].
    destruct (Z.lt_ge_cases bit 0) as [Hneg|Hpos].
    { rewrite set_bit_if_not_set_negative in Hrun by done. injection Hrun as <- <-.
      split; [lia | discriminate]. }
    pose proof (set_bit_if_not_set_spec bit called Hpos) as Hs. cbv zeta in Hs.
    destruct (Z.testbit (OperatorInfo.recursive_used_cases called) bit) eqn:Hbit.
    + rewrite Hs in Hrun. injection Hrun as <- <-. split; [auto | discriminate].
    + destruct Hs as (c & Hc & Hm & Hn & He). rewrite Hc in Hrun.
      injection Hrun as <- <-. split; [discriminate|].
      intros _ Hsat. rewrite He, <- Hn, <- Hm.
      destruct Hsat as [[-> ->]|[-> ->]]; reflexivity.
  - intros lo ro op_type param_order called r called'.
    apply check_and_set_recursion_validity_no_bit_lost.
  - intros fuel g out g'. apply generate_recursive_operator_data_by_loop_keeps_registry.
  - intros fuel g sym g1 called g2. apply generate_rejects_used_bit.
Qed.

(** A first candidate built on unary minus takes bit 0 of its mask; the
    next candidate that draws unary minus again is rejected.  A unary
    operator whose mask holds bit 0 is closed to recursion by bit 1. *)
Lemma recursion_bitmask_saturation_witness :
  let g1 := (generate_recursive_operator_data_by_loop 3 minus_only).2 in
  (exists data, (generate_recursive_operator_data_by_loop 3 minus_only).1 = Ok (Some data)) /\
  (exists g', generate_recursive_operator_data_by_loop 3 g1 = (Ok None, g') /\
     forall r, OperatorManager.deref (operator_manager g') r
               = OperatorManager.deref (operator_manager g1) r) /\
  (let called := OperatorManager.deref (operator_manager g1) 1%positive in
   let called' := (set_bit_if_not_set 1 called).2 in
   OperatorInfo.recursive_used_cases called = 1 /\
   OperatorInfo.recursive_used_cases called' = 3 /\
   OperatorInfo.is_recursion_enabled called' = false).
Proof.
  intros g1. split; [eexists; vm_compute; reflexivity|]. split.
  - refine (proj1 (proj2 (proj2 (proj2 recursion_bitmask_saturation))
                     3%nat g1 "@" _ 1%positive _ _ _) _ _);
      vm_compute; reflexivity.
  - intros called called'. split; [vm_compute; reflexivity|].
    split; [vm_compute; reflexivity|].
    refine (proj2 (proj2 (proj1 recursion_bitmask_saturation 1 called (Ok true) called' _))
                  eq_refl (or_introl (conj _ _))); vm_compute; reflexivity.
Defined.

End recursion_safety.
Section orders.
Import OperatorManager.

(** *** Order of an operator *)

Lemma py_max_from_some (c : Z) (l : list Z) :
  exists v, py_max_from (Some c) (Some <$> l) = Ok (Some v) /\
            v ∈ c :: l /\ forall o, o ∈ c :: l -> o <= v.
Proof.
  revert c. induction l as [|x l IH]; intros c; simpl.
  - exists c. split; [done|]. split; [apply list_elem_of_here|].
    intros o Hmem. apply list_elem_of_singleton in Hmem. lia.
  - destruct (IH (if c <? x then x else c)) as (v & Hv & Hmem & Hmax).
    assert (c <= v /\ x <= v) as [Hc Hx].
    { pose proof (Hmax _ (list_elem_of_here _ _)) as Hle.
      destruct (Z.ltb_spec c x); lia. }
    exists v. split; [done|]. split.
    + apply elem_of_cons in Hmem as [->|Hmem].
      * destruct (Z.ltb_spec c x);
          [apply list_elem_of_further, list_elem_of_here | apply list_elem_of_here].
      * apply list_elem_of_further, list_elem_of_further, Hmem.
    + intros o Ho. apply elem_of_cons in Ho as [->|Ho]; [done|].
      apply elem_of_cons in Ho as [->|Ho]; [done|].
      apply Hmax, list_elem_of_further, Ho.
Qed.

Lemma collect_dependency_orders m deps orders :
  Forall2 (fun d o => exists rd, operators m !! d = Some rd /\
                                OperatorInfo.n_order (deref m rd) = Some o) deps orders ->
  collect (dependency_order m) deps = Ok (Some <$> orders).
Proof.
  induction 1 as [|d o deps orders (rd & Hd & Ho) _ IH]; simpl; [done|].
  unfold dependency_order at 1. rewrite Hd, Ho. simpl. now rewrite IH.
Qed.

Lemma n_order_update_object m r o :
  OperatorInfo.n_order (deref (update_object r (OperatorInfo.set_n_order o) m) r) = o.
Proof.
  unfold deref, update_object. simpl. now rewrite lookup_total_insert_eq.
Qed.

(** What [calculate_order] stores for a registered operator whose
    dependencies are registered with the orders [orders]. *)
Lemma calculate_order_run :
  forall (m : OperatorManager) (operator_id : Z) (r : ref) (orders : list Z),
     operators m !! operator_id = Some r ->
     Forall2 (fun d o => exists rd, operators m !! d = Some rd /\
                                   OperatorInfo.n_order (deref m rd) = Some o)
             (default [] (OperatorInfo.dependencies (deref m r))) orders ->
     exists n m',
       calculate_order operator_id m = (Ok tt, m') /\
       m' = update_object r (OperatorInfo.set_n_order (Some n)) m /\
       order_of m' operator_id = Some n /\
       (orders = [] -> n = 1) /\
       (orders <> [] ->
        exists v, v ∈ orders /\ (forall o, o ∈ orders -> o <= v) /\
                  n = if bool_decide (OperatorInfo.definition_type (deref m r)
                                      = Some "recursive_definition")
                      then v + 1 else v) /\
       (Forall (fun o => 1 <= o) orders -> 1 <= n).
Proof.
  intros m operator_id r orders Hr Hdeps.
  assert (forall n, order_of (update_object r (OperatorInfo.set_n_order (Some n)) m)
                             operator_id = Some n) as Hread.
  { intros n. unfold order_of. simpl. rewrite Hr. apply n_order_update_object. }
  unfold calculate_order. rewrite Hr.
  destruct (OperatorInfo.dependencies (deref m r)) as [[|d deps]|] eqn:Hd; simpl in Hdeps.
  - apply Forall2_nil_inv_l in Hdeps as ->.
    exists 1, (update_object r (OperatorInfo.set_n_order (Some 1)) m).
    repeat split; auto; try done; lia.
  - rewrite (collect_dependency_orders _ _ _ Hdeps).
    destruct orders as [|c orders]; [inversion Hdeps|].
    destruct (py_max_from_some c orders) as (v & Hv & Hmem & Hmax).
    cbn [rbind fmap list_fmap py_max]. rewrite Hv. cbn [rbind].
    case_bool_decide.
    + exists (v + 1), (update_object r (OperatorInfo.set_n_order (Some (v + 1))) m).
      repeat split; auto; try done.
      * intros _. exists v. auto.
      * intros Hall. rewrite Forall_forall in Hall. specialize (Hall v Hmem). lia.
    + exists v, (update_object r (OperatorInfo.set_n_order (Some v)) m).
      repeat split; auto; try done.
      * intros _. exists v. auto.
      * intros Hall. rewrite Forall_forall in Hall. exact (Hall v Hmem).
  - apply Forall2_nil_inv_l in Hdeps as ->.
    exists 1, (update_object r (OperatorInfo.set_n_order (Some 1)) m).
    repeat split; auto; try done; lia.
Qed.

(** [calculate_order] keeps every stored order at least 1. *)
Lemma calculate_order_orders_positive (m : OperatorManager) (operator_id : Z) (r : ref) :
  orders_positive m ->
  operators m !! operator_id = Some r ->
  (forall d, d ∈ default [] (OperatorInfo.dependencies (deref m r)) ->
             is_Some (order_of m d)) ->
  exists m', calculate_order operator_id m = (Ok tt, m') /\ orders_positive m'.
Proof.
  intros Hpos Hr Hdeps.
  assert (exists orders,
            Forall2 (fun d o => exists rd, operators m !! d = Some rd /\
                                          OperatorInfo.n_order (deref m rd) = Some o)
                    (default [] (OperatorInfo.dependencies (deref m r))) orders /\
            Forall (fun o => 1 <= o) orders) as (orders & Hall & Hge).
  { induction (default [] (OperatorInfo.dependencies (deref m r))) as [|d deps IH].
    - exists []. split; constructor.
    - destruct IH as (orders & Hall & Hge).
      { intros d' Hd'. apply Hdeps, list_elem_of_further, Hd'. }
      destruct (Hdeps d (list_elem_of_here _ _)) as [o Ho].
      unfold order_of in Ho.
      destruct (operators m !! d) as [rd|] eqn:Hd; [|discriminate].
      exists (o :: orders). split; constructor; eauto. }
  destruct (calculate_order_run m operator_id r orders Hr Hall)
    as (n & m' & Hrun & -> & _ & _ & _ & Hone).
  specialize (Hone Hge).
  eexists. split; [exact Hrun|].
  intros k r' n' Hk. simpl in Hk. rewrite deref_update_object.
  destruct (decide (r = r')) as [<-|Hne].
  - simpl. intros [= <-]. exact Hone.
  - apply (Hpos k r' n' Hk).
Qed.

(** C4. [calculate_order] on a registered operator whose dependencies are
    registered with orders [orders] stores 1 when there is no dependency
    and otherwise the greatest of [orders], plus one exactly when the
    definition kind is [recursive_definition]; the stored order is at
    least 1 as soon as the dependencies' orders are.  On the registry of
    [+] (id 1) and [*] (id 4, depending on 1, not recursive) the orders
    computed for 1 and then 4 are both 1. *)
Theorem calculate_order_formula :
  (forall (m : OperatorManager) (operator_id : Z) (r : ref) (orders : list Z),
     operators m !! operator_id = Some r ->
     Forall2 (fun d o => exists rd, operators m !! d = Some rd /\
                                   OperatorInfo.n_order (deref m rd) = Some o)
             (default [] (OperatorInfo.dependencies (deref m r))) orders ->
     exists n m',
       calculate_order operator_id m = (Ok tt, m') /\
       m' = update_object r (OperatorInfo.set_n_order (Some n)) m /\
       order_of m' operator_id = Some n /\
       (orders = [] -> n = 1) /\
       (orders <> [] ->
        exists v, v ∈ orders /\ (forall o, o ∈ orders -> o <= v) /\
                  n = if bool_decide (OperatorInfo.definition_type (deref m r)
                                      = Some "recursive_definition")
                      then v + 1 else v) /\
       (Forall (fun o => 1 <= o) orders -> 1 <= n)) /\
  (let m1 := (calculate_order 1 plus_times_registry).2 in
   let m4 := (calculate_order 4 m1).2 in
   order_of m1 1 = Some 1 /\ order_of m4 4 = Some 1 /\ order_of m4 1 = Some 1).
Proof. split; [exact calculate_order_run | vm_compute; auto]. Qed.

(** With order 1 stored for [+], the order computed for [*] is 1. *)
Lemma calculate_order_formula_witness :
  let m1 := (calculate_order 1 plus_times_registry).2 in
  exists n m',
    calculate_order 4 m1 = (Ok tt, m') /\ order_of m' 4 = Some n /\ n = 1 /\ 1 <= n.
Proof.
  intros m1.
  assert (operators m1 !! 4 = Some 2%positive) as Hreg by (vm_compute; reflexivity).
  assert (Forall2 (fun d o => exists rd, operators m1 !! d = Some rd /\
                                        OperatorInfo.n_order (deref m1 rd) = Some o)
                  (default [] (OperatorInfo.dependencies (deref m1 2%positive))) [1])
    as Hdeps.
  { constructor; [|constructor]. exists 1%positive. split; vm_compute; reflexivity. }
  destruct (proj1 calculate_order_formula m1 4 2%positive [1] Hreg Hdeps)
    as (n & m' & Hrun & _ & Hread & _ & Hmax & Hone).
  exists n, m'. split; [exact Hrun|]. split; [exact Hread|]. split.
  - destruct (Hmax ltac:(discriminate)) as (v & Hv & _ & Hn).
    apply list_elem_of_singleton in Hv. subst v. exact Hn.
  - apply Hone. constructor; [lia | constructor].
Defined.

End orders.
Section removal.
Import OperatorManager.

(** *** Removal of one operator *)

Lemma list_remove_first_split (x : ref) (l l' : list ref) :
  list_remove_first x l = Some l' ->
  exists l1 l2, l = (l1 ++ (x :: l2))%list /\ (x ∉ l1) /\ l' = (l1 ++ l2)%list.
Proof.
  revert l'. induction l as [|y l IH]; intros l'; simpl; [done|].
  case_bool_decide as Hxy.
  - intros [= <-]. exists [], l. subst. split; [done|]. split; [apply not_elem_of_nil|done].
  - destruct (list_remove_first x l) as [r|] eqn:Hr; [|done].
    intros [= <-]. destruct (IH r eq_refl) as (l1 & l2 & -> & Hni & ->).
    exists (y :: l1), l2. split; [done|]. split; [|done].
    rewrite not_elem_of_cons. split; [exact Hxy | exact Hni].
Qed.

Lemma list_remove_first_elem (x : ref) (l : list ref) :
  x ∈ l -> is_Some (list_remove_first x l).
Proof.
  induction l as [|y l IH]; simpl.
  - intros H. now apply elem_of_nil in H.
  - intros H. case_bool_decide as Hxy; [eauto|].
    apply elem_of_cons in H as [->|H]; [done|].
    destruct (IH H) as [r ->]. eauto.
Qed.

Lemma not_found_is_not_already_exists (op_id : Z) :
  not_found op_id <> already_exists op_id.
Proof.
  unfold not_found, already_exists. intros [= H].
  apply String.app_inj in H. apply String.app_inj in H. discriminate H.
Qed.

(** The run of [remove_operator] on a registered operator that is listed
    under its symbol. *)
Lemma remove_operator_registered (m : OperatorManager) (op_id : Z) (r : ref) (l : list ref) :
  operators m !! op_id = Some r ->
  symbol_to_operators m !! OperatorInfo.symbol (deref m r) = Some l ->
  r ∈ l ->
  exists m' l1 l2,
    remove_operator op_id m = (Ok tt, m') /\
    operators m' = delete op_id (operators m) /\
    available_funcs m' =
      delete ("op_count_" ++ str_of_int (OperatorInfo.id (deref m r)))
        (delete ("op_" ++ str_of_int (OperatorInfo.id (deref m r))) (available_funcs m)) /\
    l = (l1 ++ (r :: l2))%list /\ (r ∉ l1) /\
    symbol_to_operators m' =
      <[OperatorInfo.symbol (deref m r) := (l1 ++ l2)%list]> (symbol_to_operators m) /\
    base_operators m' = base_operators m /\
    objects m' = objects m.
Proof.
  intros Hr Hl Hin. unfold remove_operator. rewrite Hr. simpl. rewrite Hl.
  destruct (list_remove_first_elem r l Hin) as [l' Hl'].
  destruct (list_remove_first_split r l l' Hl') as (l1 & l2 & -> & Hni & ->).
  rewrite Hl'. eexists _, l1, l2. repeat split; try reflexivity; assumption.
Qed.

(** C8, as the code has it.  For an unknown id [remove_operator] raises
    the not-found [ValueError] (not the one of a duplicate id) and leaves
    the registry as it was.  For a registered id it deletes the id from
    [operators], deletes the keys [op_<id>] and [op_count_<id>] from
    [available_funcs], and takes the first occurrence of the operator out
    of the list of its symbol in [symbol_to_operators], provided it is
    listed there; [base_operators] and the objects are left as they
    were. *)
Theorem remove_operator_effect (m : OperatorManager) (op_id : Z) :
  not_found op_id <> already_exists op_id /\
  (operators m !! op_id = None ->
   remove_operator op_id m = (Raise (not_found op_id), m)) /\
  (forall r l,
     operators m !! op_id = Some r ->
     symbol_to_operators m !! OperatorInfo.symbol (deref m r) = Some l ->
     r ∈ l ->
     exists m' l1 l2,
       remove_operator op_id m = (Ok tt, m') /\
       operators m' = delete op_id (operators m) /\
       available_funcs m' =
         delete ("op_count_" ++ str_of_int (OperatorInfo.id (deref m r)))
           (delete ("op_" ++ str_of_int (OperatorInfo.id (deref m r))) (available_funcs m)) /\
       l = (l1 ++ (r :: l2))%list /\ (r ∉ l1) /\
       symbol_to_operators m' =
         <[OperatorInfo.symbol (deref m r) := (l1 ++ l2)%list]> (symbol_to_operators m) /\
       base_operators m' = base_operators m /\
       objects m' = objects m).
Proof.
  split; [apply not_found_is_not_already_exists|]. split.
  - intros Hn. unfold remove_operator. now rewrite Hn.
  - intros r l. apply remove_operator_registered.
Qed.

(** After a successful removal the base operator of base 2 is still
    listed in [base_operators]. *)
Lemma remove_operator_keeps_base_entry :
  exists r m',
    operators base_two_registry !! 1 = Some r /\
    remove_operator 1 base_two_registry = (Ok tt, m') /\
    operators m' !! 1 = None /\
    ~ (forall b l, base_operators m' !! b = Some l -> r ∉ l).
Proof.
  exists 1%positive. eexists. split; [reflexivity|]. split; [reflexivity|].
  split; [reflexivity|]. intros H.
  apply (H 2 [1%positive]); [reflexivity|]. apply list_elem_of_singleton. reflexivity.
Qed.

(** Removing the only operator of [base_two_registry]. *)
Lemma remove_operator_effect_witness :
  exists m',
    remove_operator 1 base_two_registry = (Ok tt, m') /\
    operators m' = ∅ /\
    symbol_to_operators m' !! "#" = Some [] /\
    base_operators m' = base_operators base_two_registry /\
    remove_operator 1 m' = (Raise (not_found 1), m').
Proof.
  assert (operators base_two_registry !! 1 = Some 1%positive) as Hreg
    by (vm_compute; reflexivity).
  assert (symbol_to_operators base_two_registry
            !! OperatorInfo.symbol (deref base_two_registry 1%positive)
          = Some [1%positive]) as Hsym0 by (vm_compute; reflexivity).
  destruct (proj2 (proj2 (remove_operator_effect base_two_registry 1))
              1%positive [1%positive] Hreg Hsym0 (list_elem_of_here _ _))
    as (m' & l1 & l2 & Hrun & Hops & _ & Hl & Hni & Hsym & Hbase & _).
  exists m'. split; [exact Hrun|].
  assert (l1 = [] /\ l2 = []) as [-> ->].
  { destruct l1 as [|x l1]; [injection Hl as <-; done|].
    injection Hl as <- Hl. destruct l1; discriminate Hl. }
  split; [rewrite Hops; vm_compute; reflexivity|].
  split; [rewrite Hsym; apply lookup_insert_eq|].
  split; [exact Hbase|].
  apply (proj1 (proj2 (remove_operator_effect m' 1))).
  rewrite Hops. vm_compute. reflexivity.
Defined.

End removal.
Section evaluator.
Import ExpressionEvaluator.

(** *** The evaluator: what a walk leaves alone *)

#[export] Instance walk_frame_preorder : PreOrder walk_frame.
Proof.
  split.
  - intros s. repeat split.
  - intros a b c (?&?&?&?&?) (?&?&?&?&?). repeat split; congruence.
Qed.

Ltac frame_modify := apply preserves_modify; intros ?; repeat split.

Lemma count_operator_frame operator : preserves walk_frame (count_operator operator).
Proof. unfold count_operator. repeat first [frame_modify | preserves_step]. Qed.

Lemma tree_to_str_frame mgr node parent wbs op_mode :
  preserves walk_frame (tree_to_str mgr node parent wbs op_mode).
Proof.
  revert parent. induction node as [p v b|p v|p op l IHl r IHr|p op e IHe]; intros parent; simpl.
  - repeat preserves_step.
  - repeat preserves_step.
  - repeat first [apply count_operator_frame | apply IHl | apply IHr | preserves_step].
  - repeat first [apply count_operator_frame | apply IHe | preserves_step].
Qed.

Lemma init_expr_frame mgr tree id op_mode :
  preserves walk_frame (init_expr mgr tree id op_mode).
Proof.
  unfold init_expr, tree_to_str_opt.
  repeat first [frame_modify | apply tree_to_str_frame | preserves_step].
Qed.

Lemma string_app_length (a b : string) :
  String.length (a ++ b) = (String.length a + String.length b)%nat.
Proof. induction a as [|c a IH]; simpl; [done|]. now rewrite IH. Qed.

Lemma string_app_assoc (a b c : string) : (a ++ b) ++ c = a ++ (b ++ c).
Proof.
  induction a as [|x a IH]; [done|].
  change (String x ((a ++ b) ++ c) = String x (a ++ (b ++ c))). now f_equal.
Qed.

Lemma bracketed_differs (lb rb body : string) :
  lb <> "" -> lb ++ body ++ rb <> body.
Proof.
  intros Hlb Heq. apply (f_equal String.length) in Heq.
  rewrite !string_app_length in Heq.
  destruct lb; [done|]. simpl in Heq. lia.
Qed.

(** C5. A binary application with precedence [p], rendered under any
    parent that has a precedence (or under none), comes out between the
    bracket atoms exactly when the rule says so: always in
    [with_all_brackets] mode; otherwise when [p] is below the parent's
    precedence, or equal to it with a left-associative parent and the node
    on the right, or a right-associative parent and the node on the left.
    Outside [with_all_brackets] mode a root and a node of greater
    precedence than its parent are rendered bare. *)
Theorem binary_bracketing mgr position operator l r parent wbs op_mode
    (self s1 s2 s3 : ExpressionEvaluator.t) p lb rb left_str right_str :
  OperatorInfo.priority operator = Some p ->
  (forall par, parent = Some par -> is_Some (OperatorInfo.priority par)) ->
  atoms self !! "left_bracket" = Some lb ->
  atoms self !! "right_bracket" = Some rb ->
  count_operator operator self = (Ok tt, s1) ->
  tree_to_str mgr l (Some operator) wbs op_mode s1 = (Ok left_str, s2) ->
  tree_to_str mgr r (Some operator) wbs op_mode s2 = (Ok right_str, s3) ->
  let body := left_str ++ OperatorInfo.symbol operator ++ right_str in
  let bracket := bracket_rule (with_all_brackets self) p position parent in
  let out := tree_to_str mgr (BinaryExpressionNode position operator l r)
               parent wbs op_mode self in
  out = (Ok (if bracket then lb ++ body ++ rb else body), s3) /\
  (lb <> "" -> (out.1 = Ok (lb ++ body ++ rb) <-> bracket = true)) /\
  (with_all_brackets self = false -> parent = None -> out.1 = Ok body) /\
  (with_all_brackets self = false ->
   forall par q, parent = Some par -> OperatorInfo.priority par = Some q -> q < p ->
                 out.1 = Ok body).
Proof.
  intros Hp Hpar Hlb Hrb H1 H2 H3 body bracket out.
  assert (walk_frame self s3) as (Hwab & Hat & _).
  { transitivity s1; [eapply count_operator_frame; eauto|].
    transitivity s2; eapply tree_to_str_frame; eauto. }
  assert (out = (Ok (if bracket then lb ++ body ++ rb else body), s3)) as Hout.
  { unfold out. simpl. unfold bind at 1. rewrite H1.
    unfold bind at 1. rewrite H2. unfold bind at 1. rewrite H3.
    unfold bind at 1, get at 1. rewrite Hwab.
    unfold bracket, bracket_rule.
    assert ((let* lb0 := lift (atom s3 "left_bracket") in
             let* rb0 := lift (atom s3 "right_bracket") in
             ret (lb0 ++ left_str ++ OperatorInfo.symbol operator ++ right_str ++ rb0)) s3
            = (Ok (lb ++ body ++ rb), s3)) as Hbr.
    { unfold bind, lift, atom, ret. rewrite Hat, Hlb, Hrb. unfold body.
      now rewrite !string_app_assoc. }
    destruct (with_all_brackets self); cbn [orb]; [exact Hbr|].
    destruct parent as [par|]; [|reflexivity].
    destruct (Hpar par eq_refl) as [q Hq]. rewrite Hq, Hp.
    unfold bind at 1, lift at 1, py_lt.
    destruct (p <? q) eqn:Hlt; cbn [orb]; [exact Hbr|].
    destruct (Z.eqb_spec p q) as [->|Hne]; cbn [andb].
    - rewrite bool_decide_eq_true_2 by reflexivity.
      destruct (bool_decide (_ = Some "left") && bool_decide (position = Some "right"));
        cbn [orb]; [exact Hbr|].
      destruct (bool_decide (_ = Some "right") && bool_decide (position = Some "left"));
        [exact Hbr | reflexivity].
    - rewrite bool_decide_eq_false_2 by congruence. reflexivity. }
  split; [exact Hout|]. rewrite Hout. cbn [fst]. split; [|split].
  - intros Hne. split.
    + intros [= Heq]. destruct bracket; [done|].
      symmetry in Heq. now apply bracketed_differs in Heq.
    + intros ->. reflexivity.
  - intros Hw Hroot. unfold bracket, bracket_rule. rewrite Hw, Hroot. reflexivity.
  - intros Hw par q -> Hq Hlt. unfold bracket, bracket_rule. rewrite Hw, Hq.
    destruct (Z.ltb_spec p q); [lia|]. destruct (Z.eqb_spec p q); [lia|]. reflexivity.
Qed.


(** [2+3] as the left operand of [*]: lower precedence, hence brackets;
    the whole tree renders as the specification's example does. *)
Lemma binary_bracketing_witness :
  (tree_to_str empty_registry two_plus_three (Some times) true true new_evaluator).1
    = Ok "(2+3)" /\
  (tree_to_str empty_registry two_plus_three_times_five None true true new_evaluator).1
    = Ok "(2+3)*5".
Proof.
  split; [|vm_compute; reflexivity].
  set (s1 := (count_operator plus new_evaluator).2).
  assert (OperatorInfo.priority plus = Some 1) as Hp by reflexivity.
  assert (forall par, Some times = Some par -> is_Some (OperatorInfo.priority par)) as Hpar.
  { intros par [= <-]. exists 2. reflexivity. }
  assert (atoms new_evaluator !! "left_bracket" = Some "(") as Hlb by (vm_compute; reflexivity).
  assert (atoms new_evaluator !! "right_bracket" = Some ")") as Hrb by (vm_compute; reflexivity).
  assert (count_operator plus new_evaluator = (Ok tt, s1)) as H1 by (vm_compute; reflexivity).
  assert (tree_to_str empty_registry (NumberNode (Some "left") 2 10) (Some plus) true true s1
          = (Ok "2", s1)) as H2 by (vm_compute; reflexivity).
  assert (tree_to_str empty_registry (NumberNode (Some "right") 3 10) (Some plus) true true s1
          = (Ok "3", s1)) as H3 by (vm_compute; reflexivity).
  pose proof (proj1 (binary_bracketing empty_registry (Some "left") plus _ _ (Some times)
                       true true new_evaluator s1 s1 s1 1 "(" ")" "2" "3"
                       Hp Hpar Hlb Hrb H1 H2 H3)) as Hout.
  unfold two_plus_three. rewrite Hout. vm_compute. reflexivity.
Defined.

(** *** The cached results of an evaluator *)

Lemma shown_atoms s s' v : atoms s' = atoms s -> shown s' v = shown s v.
Proof. intros H. unfold shown, atom. now rewrite H. Qed.

(** Once [calculate_result] has returned, the result is cached. *)
Lemma calculate_result_caches py_exec s w s' :
  calculate_result py_exec s = (Ok w, s') ->
  exists x, expr_result s' = Some x /\ shown s' x = Ok w.
Proof.
  unfold calculate_result, bind at 1, get at 1.
  destruct (expr_result s) as [x|] eqn:Hx.
  - unfold lift. intros [= Hw <-]. eauto.
  - unfold bind at 1, lift at 1.
    destruct (fold_opt py_exec (expression_tree s)) as [[d x]| |]; [|done..].
    unfold bind, modify, get, lift. simpl.
    intros [= Hw <-]. exists x. split; [reflexivity|exact Hw].
Qed.

Lemma calculate_normalized_expansion_degree_caches py_exec s w s' :
  calculate_normalized_expansion_degree py_exec s = (Ok w, s') ->
  exists x, normalized_expansion_degree s' = Some x /\ shown s' x = Ok w.
Proof.
  unfold calculate_normalized_expansion_degree, bind at 1, get at 1.
  destruct (normalized_expansion_degree s) as [x|] eqn:Hx.
  - unfold lift. intros [= Hw <-]. eauto.
  - unfold bind at 1, lift at 1.
    destruct (fold_opt py_exec (expression_tree s)) as [[d x]| |]; [|done..].
    unfold bind, modify, get, lift. simpl.
    intros [= Hw <-]. exists d. split; [reflexivity|exact Hw].
Qed.

(** C10. [init_expr] starts the four statistics afresh (their previous
    values have no influence on its outcome) but never touches
    [expr_result] and [normalized_expansion_degree]; so once either
    calculation has run, a later [calculate_result] or
    [calculate_normalized_expansion_degree], after [init_expr] with any
    other tree, returns what was cached for the earlier tree. *)
Theorem cached_results_survive_init_expr mgr py_exec
    (ev ev' : ExpressionEvaluator.t) tree id op_mode out :
  init_expr mgr tree id op_mode ev = (out, ev') ->
  normalized_expansion_degree ev' = normalized_expansion_degree ev /\
  expr_result ev' = expr_result ev /\
  (forall ap oc hn ao,
     init_expr mgr tree id op_mode
       (set_all_priority ap (set_operation_count oc
          (set_highest_n_order hn (set_all_operators ao ev)))) = (out, ev')) /\
  (forall v, expr_result ev = Some v ->
             calculate_result py_exec ev' = (shown ev v, ev')) /\
  (forall v, normalized_expansion_degree ev = Some v ->
             calculate_normalized_expansion_degree py_exec ev' = (shown ev v, ev')) /\
  (forall ev0 w, calculate_result py_exec ev0 = (Ok w, ev) ->
                 calculate_result py_exec ev' = (Ok w, ev')) /\
  (forall ev0 w, calculate_normalized_expansion_degree py_exec ev0 = (Ok w, ev) ->
                 calculate_normalized_expansion_degree py_exec ev' = (Ok w, ev')).
Proof.
  intros Hinit.
  destruct (init_expr_frame mgr tree id op_mode _ _ _ Hinit) as (_ & Hat & _ & Hdeg & Hres).
  assert (forall v, expr_result ev = Some v ->
                    calculate_result py_exec ev' = (shown ev v, ev')) as Hr.
  { intros v Hv. unfold calculate_result, bind, get. rewrite Hres, Hv.
    unfold lift. now rewrite (shown_atoms ev ev'). }
  assert (forall v, normalized_expansion_degree ev = Some v ->
            calculate_normalized_expansion_degree py_exec ev' = (shown ev v, ev')) as Hd.
  { intros v Hv. unfold calculate_normalized_expansion_degree, bind, get.
    rewrite Hdeg, Hv. unfold lift. now rewrite (shown_atoms ev ev'). }
  split; [exact Hdeg|]. split; [exact Hres|].
  split. { intros ap oc hn ao. rewrite <- Hinit. reflexivity. }
  split; [exact Hr|]. split; [exact Hd|]. split.
  - intros ev0 w H0. apply calculate_result_caches in H0 as (x & Hx & Hw).
    rewrite (Hr x Hx). now rewrite Hw.
  - intros ev0 w H0. apply calculate_normalized_expansion_degree_caches in H0 as (x & Hx & Hw).
    rewrite (Hd x Hx). now rewrite Hw.
Qed.

(** The result 9 of [8+1] is still returned after the evaluator has been
    initialised with [(2+3)*5], whose own result is 25. *)
Lemma cached_results_survive_init_expr_witness :
  let ev1 := (init_expr empty_registry (Some eight_plus_one) (Some 0) true new_evaluator).2 in
  let ev2 := (calculate_result no_exec ev1).2 in
  let ev3 := (init_expr empty_registry (Some two_plus_three_times_five) (Some 1) true ev2).2 in
  calculate_result no_exec ev1 = (Ok (PInt 9), ev2) /\
  expression_str ev3 = Some "(2+3)*5" /\
  calculate_normalized_expansion_degree_node no_exec two_plus_three_times_five
    = Ok (PInt 6, PInt 25) /\
  calculate_result no_exec ev3 = (Ok (PInt 9), ev3).
Proof.
  intros ev1 ev2 ev3.
  assert (calculate_result no_exec ev1 = (Ok (PInt 9), ev2)) as Hfirst
    by (vm_compute; reflexivity).
  assert (init_expr empty_registry (Some two_plus_three_times_five) (Some 1) true ev2
          = (Ok tt, ev3)) as Hinit by (vm_compute; reflexivity).
  split; [exact Hfirst|]. split; [vm_compute; reflexivity|].
  split; [vm_compute; reflexivity|].
  exact (proj1 (proj2 (proj2 (proj2 (proj2 (proj2
           (cached_results_survive_init_expr empty_registry no_exec ev2 ev3
              (Some two_plus_three_times_five) (Some 1) true (Ok tt) Hinit))))))
           ev1 (PInt 9) Hfirst).
Defined.

End evaluator.

(** *** The structural fold *)

Section fold.
Import ExpressionEvaluator.

(** A tree with a variable among its leaves folds to the sentinel pair
    whenever the fold returns. *)
Lemma fold_variable_nan py_exec node d r :
  has_variable node = true ->
  calculate_normalized_expansion_degree_node py_exec node = Ok (d, r) ->
  d = NaN /\ r = NaN.
Proof.
  revert d r.
  induction node as [p v b|p n|p op l IHl rr IHr|p op e IHe]; intros d r Hv; simpl in *.
  - discriminate.
  - intros [= <- <-]. done.
  - destruct (calculate_normalized_expansion_degree_node py_exec l)
      as [[ld lr]| |] eqn:El; simpl; try discriminate.
    destruct (is_NaN ld || is_NaN lr) eqn:Nl; [intros [= <- <-]; done|].
    destruct (has_variable l) eqn:Hl.
    { destruct (IHl ld lr eq_refl eq_refl) as [-> ->]. discriminate Nl. }
    simpl in Hv.
    destruct (calculate_normalized_expansion_degree_node py_exec rr)
      as [[rd rres]| |] eqn:Er; simpl; try discriminate.
    destruct (IHr rd rres Hv eq_refl) as [-> ->].
    simpl. intros [= <- <-]. done.
  - destruct (calculate_normalized_expansion_degree_node py_exec e)
      as [[sd sr]| |] eqn:Ee; simpl; try discriminate.
    destruct (IHe sd sr Hv eq_refl) as [-> ->].
    simpl. intros [= <- <-]. done.
Qed.

(** C3, at a failing input.  The binary branch checks the outputs of the
    operator's procedures for ['NaN'] and [7 / 0] folds to the sentinel
    pair.  The unary branch has no such check: for the reciprocal of 0,
    both procedures return ['NaN'] and the sum of the degrees,
    ['NaN' + 0], raises [TypeError]. *)
Theorem fold_unary_nan_raises :
  calculate_normalized_expansion_degree_node no_exec seven_by_zero = Ok (NaN, NaN) /\
  py_call (OperatorInfo.get_compute_function no_exec reciprocal) [PInt 0] = Ok NaN /\
  py_call (OperatorInfo.get_count_function no_exec reciprocal) [PInt 0] = Ok NaN /\
  calculate_normalized_expansion_degree_node no_exec reciprocal_of_zero
    = Raise (TypeError "can only concatenate str (not 'int') to str").
Proof. repeat split; vm_compute; reflexivity. Qed.

End fold.

(** *** Generation of expression trees *)

Section generation.
Import ExpressionGenerator.

(** At the depth bound the call is [generate_atoms]. *)
Lemma generate_expression_at_depth_bound fuel cur_depth max_depth atom_choice :
  max_depth <= cur_depth ->
  generate_expression (S fuel) cur_depth max_depth atom_choice
  = (let* expr_node := generate_atoms atom_choice in ret (Some expr_node))%py.
Proof.
  intros H. simpl. destruct (Z.leb_spec max_depth cur_depth); [done|lia].
Qed.

(** [random.choice] returns an element of the sequence. *)
Lemma choice_elem {A} (seq : list A) tape x tape' :
  Random.choice seq tape = (Ok x, tape') -> x ∈ seq.
Proof.
  destruct seq as [|y seq]; [discriminate|].
  unfold Random.choice, bind, Random.draw, ret.
  destruct tape as [|n tape]; [discriminate|].
  intros [= <- _]. apply list_elem_of_In.
  exact (nth_In (y :: seq) y (Nat.mod_upper_bound n (length (y :: seq)) ltac:(discriminate))).
Qed.

(** Below the depth bound, a category whose pool is empty leads to the
    same call again, on the state left by the draw. *)
Lemma generate_expression_retries fuel cur_depth max_depth atom_choice s expr_type s1 :
  cur_depth < max_depth ->
  draw_expr_type s = (Ok expr_type, s1) ->
  (expr_type = "binary" /\ binary_ops s1 = []) \/
  (expr_type = "unary_prefix" /\ unary_prefix_ops s1 = []) \/
  (expr_type = "unary_postfix" /\ unary_postfix_ops s1 = []) ->
  generate_expression (S fuel) cur_depth max_depth atom_choice s
  = generate_expression fuel cur_depth max_depth atom_choice s1.
Proof.
  intros Hd Hdraw Hcase. simpl.
  destruct (Z.leb_spec max_depth cur_depth); [lia|].
  unfold bind at 1. rewrite Hdraw. unfold bind at 1, get at 1.
  destruct Hcase as [[-> ->]|[[-> ->]|[-> ->]]]; reflexivity.
Qed.

(** Below the depth bound, the prefix category with a pool that is not
    empty: the operator picked becomes the root, over the child built
    at the next depth and tagged [unary]. *)
Lemma generate_expression_prefix fuel cur_depth max_depth atom_choice s s1 s2 s3 op e :
  cur_depth < max_depth ->
  draw_expr_type s = (Ok "unary_prefix", s1) ->
  unary_prefix_ops s1 <> [] ->
  rand (Random.choice (unary_prefix_ops s1)) s1 = (Ok op, s2) ->
  default 0 (OperatorInfo.is_base op) = 0 ->
  generate_expression fuel (cur_depth + 1) max_depth atom_choice s2 = (Ok (Some e), s3) ->
  generate_expression (S fuel) cur_depth max_depth atom_choice s
  = (Ok (Some (UnaryExpressionNode None op (set_position "unary" e))), s3).
Proof.
  intros Hd Hdraw Hne Hop Hb Hrec. simpl.
  destruct (Z.leb_spec max_depth cur_depth); [lia|].
  unfold bind at 1. rewrite Hdraw. unfold bind at 1, get at 1.
  change ("unary_prefix" =? "binary")%string with false.
  change ("unary_prefix" =? "unary_prefix")%string with true. cbn iota.
  destruct (unary_prefix_ops s1) as [|o os] eqn:Eops; [done|].
  unfold bind at 1. rewrite Hop.
  destruct (OperatorInfo.is_base op) as [b|]; simpl in Hb.
  - subst b. change (0 =? 0) with true. cbn iota.
    unfold bind at 1. rewrite Hrec. reflexivity.
  - unfold bind at 1. rewrite Hrec. reflexivity.
Qed.

(** Below the depth bound, the postfix category with a pool that is not
    empty: whatever operator is picked and whatever child is built, the
    call yields [None]. *)
Lemma generate_expression_postfix fuel cur_depth max_depth atom_choice s s1 s2 s3 op e :
  cur_depth < max_depth ->
  draw_expr_type s = (Ok "unary_postfix", s1) ->
  unary_postfix_ops s1 <> [] ->
  rand (Random.choice (unary_postfix_ops s1)) s1 = (Ok op, s2) ->
  generate_expression fuel (cur_depth + 1) max_depth atom_choice s2 = (Ok (Some e), s3) ->
  generate_expression (S fuel) cur_depth max_depth atom_choice s = (Ok None, s3).
Proof.
  intros Hd Hdraw Hne Hop Hrec. simpl.
  destruct (Z.leb_spec max_depth cur_depth); [lia|].
  unfold bind at 1. rewrite Hdraw. unfold bind at 1, get at 1.
  change ("unary_postfix" =? "binary")%string with false.
  change ("unary_postfix" =? "unary_prefix")%string with false.
  change ("unary_postfix" =? "unary_postfix")%string with true. cbn iota.
  destruct (unary_postfix_ops s1) as [|o os] eqn:Eops; [done|].
  unfold bind at 1. rewrite Hop.
  unfold bind at 1. rewrite Hrec. reflexivity.
Qed.

(** C7, at a failing input.  Below the depth bound, with the postfix
    category drawn and a postfix operator available, the child is built
    (here the atom 5 in base 10, tagged [unary]) and attached, but the
    branch ends without [return]: the call yields [None], not the unary
    node. *)
Theorem generate_expression_postfix_returns_none :
  (generate_expression 5 0 1 "number" postfix_only).1 = Ok None /\
  tape (generate_expression 5 0 1 "number" postfix_only).2 = [] /\
  (generate_expression 4 1 1 "number" (set_tape [5; 8]%nat postfix_only)).1
    = Ok (Some (NumberNode None 5 10)).
Proof. repeat split; vm_compute; reflexivity. Qed.

End generation.

(** *** Cascading deletion *)

Section cascade.
Import OperatorManager.


(** *** The search for dependents and the cascade on a well-formed registry *)

Lemma dependent_of_trans ops x y z :
  dependent_of ops x y -> dependent_of ops y z -> dependent_of ops x z.
Proof.
  intros Hxy Hyz. induction Hyz as [|a b _ IH Hab]; [exact Hxy|].
  eapply dependent_step; eauto.
Qed.

Section search.
Variable ops : list OperatorInfo.
Hypothesis deps_set : forall o, o ∈ ops -> is_Some (OperatorInfo.dependencies o).

Lemma id_in_ids o : o ∈ ops -> OperatorInfo.id o ∈ ids_of ops.
Proof.
  intros Ho. unfold ids_of. apply elem_of_list_to_set, list_elem_of_fmap. eauto.
Qed.

Lemma search_terminates fuel :
  forall x S, x ∈ ids_of ops -> (size (ids_of ops ∖ S) < fuel)%nat ->
  exists S', _find_all_dependent_operator_ids fuel ops x S = Ok S' /\
             search_result ops x S S'.
Proof.
  induction fuel as [|fuel IH]; intros x S Hx Hsize; [lia|].
  simpl. case_bool_decide as HxS.
  { exists S. split; [done|]. repeat split; auto; try set_solver. }
  set (S1 := {[x]} ∪ S).
  assert (size (ids_of ops ∖ S1) < fuel)%nat as Hsize1.
  { assert (ids_of ops ∖ S = {[x]} ∪ ids_of ops ∖ S1) as Heq.
    { apply set_eq. intros y. unfold S1. rewrite !elem_of_union, !elem_of_difference,
        !elem_of_union, elem_of_singleton.
      destruct (decide (y = x)) as [->|]; naive_solver. }
    rewrite Heq, size_union, size_singleton in Hsize; [lia|].
    unfold S1. set_solver. }
  (* the loop over the operators *)
  assert (forall l acc,
    (forall o, o ∈ l -> o ∈ ops) ->
    S1 ⊆ acc -> acc ⊆ S ∪ ids_of ops ->
    (forall y, y ∈ acc -> y ∈ S \/ dependent_of ops x y) ->
    (forall y a, y ∈ acc -> y ∉ S1 -> depends_on ops a y -> a ∈ acc) ->
    exists acc',
      fold_left
        (fun acc operator =>
           let? to_delete_ids := acc in
           match OperatorInfo.dependencies operator with
           | None => Raise (TypeError "argument of type 'NoneType' is not iterable")
           | Some deps =>
               if bool_decide (x ∈ deps)
               then _find_all_dependent_operator_ids fuel ops
                      (OperatorInfo.id operator) to_delete_ids
               else Ok to_delete_ids
           end) l (Ok acc) = Ok acc' /\
      acc ⊆ acc' /\ acc' ⊆ S ∪ ids_of ops /\
      (forall y, y ∈ acc' -> y ∈ S \/ dependent_of ops x y) /\
      (forall y a, y ∈ acc' -> y ∉ S1 -> depends_on ops a y -> a ∈ acc') /\
      (forall o deps, o ∈ l -> OperatorInfo.dependencies o = Some deps -> x ∈ deps ->
                      OperatorInfo.id o ∈ acc')) as Hloop.
  { induction l as [|o l IHl]; intros acc Hl Hsub Hbound Hsound Hclosed.
    { exists acc. simpl. repeat split; auto.
      intros o deps Ho. now apply elem_of_nil in Ho. }
    assert (o ∈ ops) as Ho by (apply Hl, list_elem_of_here).
    destruct (deps_set o Ho) as [deps Hdeps].
    cbn [fold_left rbind]. rewrite Hdeps.
    assert (forall acc1,
      acc ⊆ acc1 -> acc1 ⊆ S ∪ ids_of ops ->
      (forall y, y ∈ acc1 -> y ∈ S \/ dependent_of ops x y) ->
      (forall y a, y ∈ acc1 -> y ∉ S1 -> depends_on ops a y -> a ∈ acc1) ->
      (x ∈ deps -> OperatorInfo.id o ∈ acc1) ->
      exists acc',
        fold_left
          (fun acc operator =>
             let? to_delete_ids := acc in
             match OperatorInfo.dependencies operator with
             | None => Raise (TypeError "argument of type 'NoneType' is not iterable")
             | Some deps =>
                 if bool_decide (x ∈ deps)
                 then _find_all_dependent_operator_ids fuel ops
                        (OperatorInfo.id operator) to_delete_ids
                 else Ok to_delete_ids
             end) l (Ok acc1) = Ok acc' /\
        acc ⊆ acc' /\ acc' ⊆ S ∪ ids_of ops /\
        (forall y, y ∈ acc' -> y ∈ S \/ dependent_of ops x y) /\
        (forall y a, y ∈ acc' -> y ∉ S1 -> depends_on ops a y -> a ∈ acc') /\
        (forall o' deps', o' ∈ o :: l -> OperatorInfo.dependencies o' = Some deps' ->
                          x ∈ deps' -> OperatorInfo.id o' ∈ acc')) as Hrest.
    { intros acc1 Hsub1 Hbound1 Hsound1 Hclosed1 Hid.
      destruct (IHl acc1) as (acc' & Hrun & Hsub' & Hbound' & Hsound' & Hclosed' & Hall);
        auto.
      { intros o' Ho'. apply Hl, list_elem_of_further, Ho'. }
      { set_solver. }
      exists acc'. repeat split; auto; [set_solver|].
      intros o' deps' Ho' Hd' Hx'. apply elem_of_cons in Ho' as [->|Ho'].
      - apply Hsub', Hid. congruence.
      - eapply Hall; eauto. }
    case_bool_decide as Hxd.
    - destruct (IH (OperatorInfo.id o) acc) as (acc1 & Hrun1 & R1 & R2 & R3 & R4 & R5).
      { now apply id_in_ids. }
      { eapply Nat.le_lt_trans; [|exact Hsize1].
        apply subseteq_size. set_solver. }
      rewrite Hrun1. apply Hrest; auto.
      + set_solver.
      + intros y Hy. destruct (R4 y Hy) as [Hacc|Hdep]; [auto|]. right.
        eapply dependent_of_trans; [|exact Hdep].
        eapply dependent_step; [apply dependent_self|].
        exists o, deps. auto.
      + intros y a Hy HyS1 Hdep. destruct (decide (y ∈ acc)) as [Hacc|Hacc].
        * apply R1. eapply Hclosed; eauto.
        * eapply R5; eauto.
    - apply Hrest; auto. done. }
  destruct (Hloop ops S1) as (S' & Hrun & Hsub & Hbound & Hsound & Hclosed & Hall); auto.
  { unfold S1. apply union_subseteq. split; [|set_solver].
    apply singleton_subseteq_l. set_solver. }
  { intros y Hy. unfold S1 in Hy. apply elem_of_union in Hy as [Hy|Hy]; [|auto].
    apply elem_of_singleton in Hy as ->. right. apply dependent_self. }
  { intros y a Hy HyS1. done. }
  exists S'. split; [exact Hrun|]. unfold search_result. repeat split; auto.
  - set_solver.
  - set_solver.
  - intros y a Hy HyS Hdep. destruct (decide (y = x)) as [->|Hne].
    + destruct Hdep as (o & deps & Ho & <- & Hd & Hx'). eapply Hall; eauto.
    + eapply Hclosed; eauto. unfold S1. set_solver.
Qed.

(** From the empty set the search returns exactly the operators from
    which [x] is reachable. *)
Lemma search_from_empty fuel x :
  x ∈ ids_of ops -> (size (ids_of ops) < fuel)%nat ->
  exists S', _find_all_dependent_operator_ids fuel ops x ∅ = Ok S' /\
             S' ⊆ ids_of ops /\ forall y, y ∈ S' <-> dependent_of ops x y.
Proof.
  intros Hx Hsize.
  destruct (search_terminates fuel x ∅) as (S' & Hrun & _ & HxS & Hb & Hsound & Hclosed);
    auto.
  { replace (ids_of ops ∖ ∅) with (ids_of ops) by set_solver. exact Hsize. }
  exists S'. split; [exact Hrun|]. split; [set_solver|].
  intros y. split.
  - intros Hy. destruct (Hsound y Hy) as [Hy'|Hy']; [set_solver|exact Hy'].
  - induction 1 as [|a b _ IHb Hab]; [exact HxS|].
    eapply Hclosed; eauto. set_solver.
Qed.
End search.

Lemma well_formed_refs_injective m k1 k2 r :
  well_formed m -> operators m !! k1 = Some r -> operators m !! k2 = Some r -> k1 = k2.
Proof. intros Hwf H1 H2. rewrite <- (wf_ids m Hwf k1 r H1). now apply (wf_ids m Hwf). Qed.

Lemma remove_operator_well_formed m k :
  well_formed m -> is_Some (operators m !! k) ->
  exists m', remove_operator k m = (Ok tt, m') /\
             operators m' = delete k (operators m) /\
             objects m' = objects m /\
             well_formed m'.
Proof.
  intros Hwf [r Hr].
  destruct (wf_symbols m Hwf k r Hr) as (l & Hl & Hin).
  destruct (remove_operator_registered m k r l Hr Hl Hin)
    as (m' & l1 & l2 & Hrun & Hops & _ & -> & Hni & Hsym & _ & Hobj).
  exists m'. split; [exact Hrun|]. split; [exact Hops|]. split; [exact Hobj|].
  assert (forall r', deref m' r' = deref m r') as Hderef.
  { intros r'. unfold deref. now rewrite Hobj. }
  split.
  - intros k' r' Hk'. rewrite Hops in Hk'. apply lookup_delete_Some in Hk' as [_ Hk'].
    rewrite Hderef. now apply (wf_ids m Hwf).
  - intros k' r' Hk'. rewrite Hops in Hk'. apply lookup_delete_Some in Hk' as [_ Hk'].
    rewrite Hderef. now apply (wf_deps m Hwf k').
  - intros k' r' Hk'. rewrite Hops in Hk'. apply lookup_delete_Some in Hk' as [Hne Hk'].
    rewrite Hderef, Hsym.
    assert (r' <> r) as Hrr.
    { intros ->. apply Hne. eapply well_formed_refs_injective; eauto. }
    destruct (wf_symbols m Hwf k' r' Hk') as (l' & Hl' & Hin').
    destruct (decide (OperatorInfo.symbol (deref m r) = OperatorInfo.symbol (deref m r')))
      as [Heq|Hneq].
    + rewrite <- Heq, lookup_insert_eq. eexists. split; [reflexivity|].
      rewrite <- Heq, Hl in Hl'. injection Hl' as <-.
      rewrite elem_of_app in *. rewrite elem_of_cons in Hin'. naive_solver.
    + rewrite lookup_insert_ne by done. eauto.
Qed.

Lemma remove_each_well_formed (l : list Z) :
  forall m, well_formed m -> NoDup l -> (forall k, k ∈ l -> is_Some (operators m !! k)) ->
  exists m', for_each l remove_operator m = (Ok tt, m') /\
             objects m' = objects m /\
             well_formed m' /\
             forall k, operators m' !! k = if decide (k ∈ l) then None else operators m !! k.
Proof.
  induction l as [|x l IH]; intros m Hwf Hnd Hreg.
  - exists m. split; [reflexivity|]. split; [reflexivity|]. split; [exact Hwf|].
    intros k. destruct (decide (k ∈ [])) as [Hk|]; [|reflexivity].
    now apply elem_of_nil in Hk.
  - apply NoDup_cons in Hnd as [Hx Hnd].
    destruct (remove_operator_well_formed m x Hwf) as (m1 & Hrun1 & Hops1 & Hobj1 & Hwf1).
    { apply Hreg, list_elem_of_here. }
    destruct (IH m1 Hwf1 Hnd) as (m' & Hrun & Hobj & Hwf' & Hops).
    { intros k Hk. rewrite Hops1, lookup_delete_ne.
      - apply Hreg, list_elem_of_further, Hk.
      - intros ->. done. }
    exists m'. split.
    { simpl. unfold bind. rewrite Hrun1. exact Hrun. }
    split; [congruence|]. split; [exact Hwf'|].
    intros k. rewrite Hops, Hops1.
    destruct (decide (k ∈ l)) as [Hk|Hk].
    + rewrite decide_True; [done|]. now apply list_elem_of_further.
    + destruct (decide (k = x)) as [->|Hne].
      * rewrite decide_True by apply list_elem_of_here. apply lookup_delete_eq.
      * rewrite decide_False.
        -- now apply lookup_delete_ne.
        -- rewrite elem_of_cons. naive_solver.
Qed.

Lemma ids_of_values m :
  well_formed m -> OperatorInfo.id <$> values m = keys m.
Proof.
  intros Hwf. unfold values, value_refs, keys.
  assert (forall l : list (Z * ref),
            (forall k r, (k, r) ∈ l -> operators m !! k = Some r) ->
            OperatorInfo.id <$> (deref m <$> l.*2) = l.*1) as Hl.
  { induction l as [|[k r] l IH]; intros Hin; [reflexivity|]. simpl.
    rewrite (wf_ids m Hwf k r) by apply Hin, list_elem_of_here.
    f_equal. apply IH. intros k' r' Hk'. apply Hin, list_elem_of_further, Hk'. }
  apply Hl. intros k r Hk. now apply elem_of_map_to_list.
Qed.

(** The cascade on a well-formed registry: with fuel beyond the number
    of operators, [delete_one_operator_by_dep] returns, and leaves
    exactly the operators from which [x] cannot be reached along
    dependencies, each under its key and unchanged. *)
Theorem delete_one_operator_by_dep_closure (m : OperatorManager) (x : Z) (fuel : nat) :
  well_formed m ->
  is_Some (operators m !! x) ->
  (size (operators m) < fuel)%nat ->
  exists m',
    delete_one_operator_by_dep fuel x m = (Ok tt, m') /\
    objects m' = objects m /\
    well_formed m' /\
    forall k,
      (dependent_of (values m) x k -> operators m' !! k = None) /\
      (~ dependent_of (values m) x k -> operators m' !! k = operators m !! k).
Proof.
  intros Hwf [rx Hx] Hfuel. unfold delete_one_operator_by_dep. rewrite Hx.
  assert (forall o, o ∈ values m -> is_Some (OperatorInfo.dependencies o)) as Hdeps.
  { intros o Ho. unfold values, value_refs in Ho.
    apply list_elem_of_fmap in Ho as (r & -> & Hr).
    apply list_elem_of_fmap in Hr as ([k r'] & -> & Hkr).
    apply elem_of_map_to_list in Hkr. now apply (wf_deps m Hwf k). }
  assert (ids_of (values m) = dom (operators m)) as Hids.
  { unfold ids_of. rewrite ids_of_values by done. unfold keys. apply set_eq. intros k.
    rewrite elem_of_list_to_set, elem_of_dom, list_elem_of_fmap. split.
    - intros ([k' r] & -> & Hkr). apply elem_of_map_to_list in Hkr. eauto.
    - intros [r Hr]. exists (k, r). split; [done|]. now apply elem_of_map_to_list. }
  destruct (search_from_empty (values m) Hdeps fuel x) as (S' & Hrun & Hsub & Hiff).
  { rewrite Hids. apply elem_of_dom. eauto. }
  { rewrite Hids, size_dom. exact Hfuel. }
  rewrite Hrun.
  destruct (remove_each_well_formed (elements S') m Hwf) as (m' & Hloop & Hobj & Hwf' & Hops).
  { apply NoDup_elements. }
  { intros k Hk. apply elem_of_elements, Hsub in Hk. rewrite Hids in Hk.
    now apply elem_of_dom in Hk. }
  exists m'. split; [exact Hloop|]. split; [exact Hobj|]. split; [exact Hwf'|].
  intros k. rewrite Hops.
  destruct (decide (k ∈ elements S')) as [Hk|Hk];
    rewrite elem_of_elements, Hiff in Hk; split; intros Hd; done.
Qed.

(** *** The renumbering on a well-formed registry *)

Lemma deref_update_eq m r f :
  deref (update_object r f m) r = f (deref m r).
Proof. rewrite deref_update_object. now destruct (decide (r = r)). Qed.

(** The inner loop body returns on an object with its sources set; it
    changes neither the id index nor any id. *)
Lemma rewrite_references_run old i r m :
  has_sources (deref m r) ->
  exists m',
    rewrite_references old i r m = (Ok tt, m') /\
    operators m' = operators m /\
    forall r', OperatorInfo.id (deref m' r') = OperatorInfo.id (deref m r') /\
               (has_sources (deref m r') -> has_sources (deref m' r')).
Proof.
  intros Hs. pose proof Hs as ([deps Hd] & [c Hc] & [n Hn]).
  unfold rewrite_references, bind, get. rewrite Hd.
  case_bool_decide.
  - unfold modify, lift. cbn beta iota.
    repeat (rewrite !deref_update_eq; simpl; rewrite ?Hc, ?Hn; simpl).
    eexists. split; [reflexivity|]. split; [reflexivity|].
    intros r'. rewrite !deref_update_object.
    destruct (decide (r = r')) as [<-|]; rewrite ?decide_True by done; [|done].
    split; [reflexivity|]. intros _. unfold has_sources. simpl. eauto.
  - exists m. split; [reflexivity|]. split; [reflexivity|]. done.
Qed.

Lemma rewrite_each_run old i (l : list ref) :
  forall m, (forall r, r ∈ l -> has_sources (deref m r)) ->
  exists m',
    for_each l (rewrite_references old i) m = (Ok tt, m') /\
    operators m' = operators m /\
    forall r', OperatorInfo.id (deref m' r') = OperatorInfo.id (deref m r') /\
               (has_sources (deref m r') -> has_sources (deref m' r')).
Proof.
  induction l as [|r l IH]; intros m Hl.
  - exists m. split; [reflexivity|]. split; [reflexivity|]. done.
  - destruct (rewrite_references_run old i r m) as (m1 & Hrun1 & Hops1 & Hsh1).
    { apply Hl, list_elem_of_here. }
    destruct (IH m1) as (m' & Hrun & Hops & Hsh).
    { intros r' Hr'. apply Hsh1, Hl, list_elem_of_further, Hr'. }
    exists m'. split.
    + simpl. unfold bind at 1. rewrite Hrun1. exact Hrun.
    + split; [congruence|]. intros r'.
      destruct (Hsh r') as [-> H2]. destruct (Hsh1 r') as [-> H1]. auto.
Qed.

Lemma deref_set_operators v m r : deref (set_operators v m) r = deref m r.
Proof. reflexivity. Qed.

Lemma value_refs_registered m r :
  r ∈ value_refs m <-> exists k, operators m !! k = Some r.
Proof.
  unfold value_refs. rewrite list_elem_of_fmap. split.
  - intros ([k r'] & -> & Hkr). apply elem_of_map_to_list in Hkr. eauto.
  - intros [k Hk]. exists (k, r). split; [done|]. now apply elem_of_map_to_list.
Qed.

(** One round of the renumbering, for a key that moves. *)
Lemma renumber_run i old r m :
  old <> i ->
  operators m !! old = Some r ->
  (forall k r', operators m !! k = Some r' -> has_sources (deref m r')) ->
  exists m',
    renumber i old m = (Ok tt, m') /\
    operators m' = delete old (<[i := r]> (operators m)) /\
    forall r', OperatorInfo.id (deref m' r') =
                 (if decide (r = r') then i else OperatorInfo.id (deref m r')) /\
               (has_sources (deref m r') -> has_sources (deref m' r')).
Proof.
  intros Hne Hr Hsrc. unfold renumber. rewrite bool_decide_eq_false_2 by done.
  unfold bind at 1, get at 1. rewrite Hr.
  destruct (Hsrc old r Hr) as ([deps Hd] & [c Hc] & [n Hn]).
  unfold bind, get, modify, lift. cbn beta iota.
  repeat (rewrite ?deref_update_eq, ?deref_set_operators; simpl; rewrite ?Hc, ?Hn; simpl).
  match goal with
  | |- context [for_each (value_refs ?m4) _ ?m4'] =>
      destruct (rewrite_each_run old i (value_refs m4) m4') as (m5 & Hrun & Hops & Hsh)
  end.
  { intros r' Hr'. apply value_refs_registered in Hr' as [k Hk]. simpl in Hk.
    rewrite !deref_update_object.
    assert (has_sources (deref m r')) as Hs'.
    { destruct (decide (k = i)) as [->|Hki].
      - rewrite lookup_insert_eq in Hk. injection Hk as <-. eapply Hsrc, Hr.
      - rewrite lookup_insert_ne in Hk by done. eapply Hsrc, Hk. }
    destruct (decide (r = r')) as [<-|]; rewrite ?decide_True by done;
      [|exact Hs'].
    destruct Hs' as (H1 & H2 & H3). unfold has_sources. simpl. eauto. }
  rewrite Hrun. eexists. split; [reflexivity|]. split.
  { simpl. now rewrite Hops. }
  intros r'. simpl.
  change (deref (set_operators ?v m5) r') with (deref m5 r').
  destruct (Hsh r') as [-> Hs5]. rewrite !deref_update_object.
  destruct (decide (r = r')) as [<-|]; rewrite ?decide_True by done.
  - split; [reflexivity|]. intros Hs. apply Hs5.
    rewrite !deref_update_object, !decide_True by done.
    destruct Hs as (H1 & H2 & H3). unfold has_sources. simpl. eauto.
  - split; [reflexivity|]. intros Hs. apply Hs5.
    rewrite !deref_update_object. rewrite !decide_False by done. exact Hs.
Qed.

(** The renumbering loop from position [a] on: the keys below [a] are
    those already renumbered, [ks] are the keys still to visit, in
    increasing order. *)
Lemma renumber_loop (ks : list Z) :
  forall (a : Z) (m : OperatorManager) (D : gset Z),
  StronglySorted Z.le ks -> NoDup ks ->
  (forall k, k ∈ ks -> a <= k) ->
  (forall k, k ∈ D -> k < a) ->
  dom (operators m) = D ∪ list_to_set ks ->
  (forall k r, operators m !! k = Some r ->
     OperatorInfo.id (deref m r) = k /\ has_sources (deref m r)) ->
  exists m',
    for_each (zip (seqZ a (Z.of_nat (length ks))) ks)
             (fun '(i, old_key) => renumber i old_key) m = (Ok tt, m') /\
    dom (operators m') = D ∪ list_to_set (seqZ a (Z.of_nat (length ks))) /\
    (forall k r, operators m' !! k = Some r ->
       OperatorInfo.id (deref m' r) = k /\ has_sources (deref m' r)).
Proof.
  induction ks as [|k ks IH]; intros a m D Hsorted Hnd Hge HD Hdom Hinv.
  - exists m. split; [reflexivity|]. split; [exact Hdom|exact Hinv].
  - apply StronglySorted_inv in Hsorted as [Hsorted Hall].
    apply NoDup_cons in Hnd as [Hk Hnd].
    rewrite Forall_forall in Hall.
    assert (a <= k) as Hak by apply Hge, list_elem_of_here.
    assert (forall k', k' ∈ ks -> a + 1 <= k') as Hge'.
    { intros k' Hk'. pose proof (Hall k' Hk').
      assert (k <> k') by (intros ->; done). lia. }
    assert (forall k', k' ∈ D ∪ {[a]} -> k' < a + 1) as HD'.
    { intros k' [Hk'| ->%elem_of_singleton]%elem_of_union; [apply HD in Hk'|]; lia. }
    assert (seqZ a (Z.of_nat (length (k :: ks)))
            = a :: seqZ (a + 1) (Z.of_nat (length ks))) as Hseq.
    { rewrite seqZ_cons by (simpl; lia). f_equal. f_equal; simpl; lia. }
    rewrite Hseq. cbn [zip zip_with for_each].
    destruct (decide (k = a)) as [->|Hne].
    + destruct (IH (a + 1) m (D ∪ {[a]}) Hsorted Hnd Hge' HD') as (m' & Hrun & Hdom' & Hinv').
      { rewrite Hdom. set_solver. }
      { exact Hinv. }
      exists m'. split.
      { unfold bind at 1, renumber at 1. rewrite bool_decide_eq_true_2 by done. exact Hrun. }
      split; [|exact Hinv']. rewrite Hdom'. set_solver.
    + assert (is_Some (operators m !! k)) as [r Hr].
      { apply elem_of_dom. rewrite Hdom. set_solver. }
      destruct (renumber_run a k r m Hne Hr) as (m1 & Hrun1 & Hops1 & Hsh1).
      { intros k' r' Hk'. apply (Hinv k' r' Hk'). }
      assert (k ∉ D) as HkD by (intros Hin; apply HD in Hin; lia).
      destruct (IH (a + 1) m1 (D ∪ {[a]}) Hsorted Hnd Hge' HD') as (m' & Hrun & Hdom' & Hinv').
      { rewrite Hops1, dom_delete_L, dom_insert_L, Hdom.
        apply set_eq. intros z. rewrite !elem_of_difference, !elem_of_union,
          !elem_of_singleton, !elem_of_list_to_set, !elem_of_cons.
        split.
        - intros [[->|[Hz|[->|Hz]]] Hzk]; try done; auto.
        - intros [[Hz| ->]|Hz].
          + split; [auto|]. intros ->. done.
          + split; [auto|]. intros ->. done.
          + split; [auto|]. intros ->. done. }
      { intros k' r' Hk'. rewrite Hops1 in Hk'.
        apply lookup_delete_Some in Hk' as [Hkk' Hk'].
        destruct (Hsh1 r') as [Hid Hsrc].
        destruct (decide (k' = a)) as [->|Hka].
        - rewrite lookup_insert_eq in Hk'. injection Hk' as <-.
          rewrite Hid, decide_True by done. split; [done|].
          apply Hsrc, (Hinv k r Hr).
        - rewrite lookup_insert_ne in Hk' by done.
          destruct (Hinv k' r' Hk') as [Hid' Hs'].
          rewrite Hid. split; [|auto].
          destruct (decide (r = r')) as [<-|]; [|exact Hid'].
          destruct (Hinv k r Hr) as [Hidk _]. congruence. }
      exists m'. split.
      { unfold bind at 1. rewrite Hrun1. exact Hrun. }
      split; [|exact Hinv']. rewrite Hdom'. set_solver.
Qed.

(** [sorted(self.operators.keys())]. *)
Lemma keys_sorted m :
  let ks := merge_sort Z.le (keys m) in
  StronglySorted Z.le ks /\ NoDup ks /\ dom (operators m) = list_to_set ks.
Proof.
  intros ks. split; [apply StronglySorted_merge_sort; apply _|].
  assert (ks ≡ₚ keys m) as Hperm by apply merge_sort_Permutation.
  split.
  - rewrite Hperm. apply NoDup_fst_map_to_list.
  - apply set_eq. intros k. rewrite elem_of_dom, elem_of_list_to_set, Hperm.
    unfold keys. rewrite list_elem_of_fmap. split.
    + intros [r Hr]. exists (k, r). split; [done|]. now apply elem_of_map_to_list.
    + intros ([k' r] & -> & Hkr). apply elem_of_map_to_list in Hkr. eauto.
Qed.

(** On a well-formed registry with positive ids and the sources set,
    [delete_one_operator] returns and leaves the ids 1..n, each operator
    under its own id. *)
Lemma delete_one_operator_dense (m : OperatorManager) (x : Z) (fuel : nat) :
  well_formed m -> renumberable m ->
  is_Some (operators m !! x) ->
  (size (operators m) < fuel)%nat ->
  exists m' (n : nat),
    delete_one_operator fuel x m = (Ok tt, m') /\
    (forall k, is_Some (operators m' !! k) <-> 1 <= k <= Z.of_nat n) /\
    renumberable m'.
Proof.
  intros Hwf Hren Hx Hfuel.
  destruct (delete_one_operator_by_dep_closure m x fuel Hwf Hx Hfuel)
    as (m1 & Hrun1 & Hobj & _ & Hops).
  assert (forall k r, operators m1 !! k = Some r -> operators m !! k = Some r) as Hsub.
  { intros k r Hk. destruct (Hops k) as [Hdel Hkeep].
    rewrite <- Hkeep; [exact Hk|]. intros Hd. rewrite (Hdel Hd) in Hk. discriminate. }
  assert (forall r, deref m1 r = deref m r) as Hderef.
  { intros r. unfold deref. now rewrite Hobj. }
  destruct (keys_sorted m1) as (Hsorted & Hnd & Hdom).
  destruct (renumber_loop (merge_sort Z.le (keys m1)) 1 m1 ∅ Hsorted Hnd)
    as (m' & Hrun & Hdom' & Hinv').
  { intros k Hk.
    assert (k ∈ dom (operators m1)) as [r Hr]%elem_of_dom
      by (rewrite Hdom; now apply elem_of_list_to_set).
    apply (Hren k r), Hsub, Hr. }
  { intros k Hk. now apply elem_of_empty in Hk. }
  { rewrite Hdom. set_solver. }
  { intros k r Hk. rewrite Hderef. destruct (Hren k r (Hsub k r Hk)) as (? & ? & ?). auto. }
  exists m', (length (merge_sort Z.le (keys m1))).
  split.
  { unfold delete_one_operator. unfold bind at 1. rewrite Hrun1.
    unfold bind at 1, get at 1. exact Hrun. }
  assert (forall k, is_Some (operators m' !! k)
                    <-> 1 <= k <= Z.of_nat (length (merge_sort Z.le (keys m1)))) as Hkeys.
  { intros k. rewrite <- elem_of_dom, Hdom', elem_of_union, elem_of_list_to_set, elem_of_seqZ.
    split; [intros [Hk|Hk]; [now apply elem_of_empty in Hk | lia] | intros Hk; right; lia]. }
  split; [exact Hkeys|].
  intros k r Hk. destruct (Hinv' k r Hk) as [Hid Hs].
  split; [exact Hid|]. split; [|exact Hs].
  apply Hkeys. eauto.
Qed.

(** The registry of 21 operators meets the assumptions. *)
Lemma dense_registry_well_formed :
  well_formed dense_registry /\ renumberable dense_registry.
Proof.
  assert (forall (P : Z -> ref -> Prop),
            Forall (fun kr => P kr.1 kr.2) (map_to_list (operators dense_registry)) ->
            forall k r, operators dense_registry !! k = Some r -> P k r) as Hall.
  { intros P HP k r Hk. rewrite Forall_forall in HP.
    apply (HP (k, r)). now apply elem_of_map_to_list. }
  split; [split|].
  - apply (Hall (fun k r => OperatorInfo.id (deref dense_registry r) = k)).
    vm_compute. repeat constructor.
  - apply (Hall (fun k r => is_Some (OperatorInfo.dependencies (deref dense_registry r)))).
    vm_compute. repeat (constructor; [eexists; reflexivity|]). constructor.
  - apply (Hall (fun k r => exists l,
        symbol_to_operators dense_registry
          !! OperatorInfo.symbol (deref dense_registry r) = Some l /\ r ∈ l)).
    vm_compute.
    repeat (constructor; [eexists; split; [reflexivity|repeat constructor]|]). constructor.
  - unfold renumberable.
    apply (Hall (fun k r => OperatorInfo.id (deref dense_registry r) = k /\ 1 <= k /\
                            has_sources (deref dense_registry r))).
    vm_compute.
    repeat (constructor;
            [split; [reflexivity|]; split; [discriminate|];
             split; [|split]; eexists; reflexivity|]).
    constructor.
Qed.

(** The cascade and renumbering of the registry of 21 operators. *)
Lemma delete_one_operator_dense_example :
  exists m' (n : nat),
    delete_one_operator 22 1 dense_registry = (Ok tt, m') /\
    (forall k, is_Some (operators m' !! k) <-> 1 <= k <= Z.of_nat n) /\
    renumberable m'.
Proof.
  destruct dense_registry_well_formed as [Hwf Hren].
  apply (delete_one_operator_dense dense_registry 1 22 Hwf Hren).
  - vm_compute. eauto.
  - vm_compute. lia.
Qed.

(** C1, at a failing input.  The registry of 21 operators is consistent
    and its ids are 1..21.  Deleting operator 1 removes it with its
    dependents 3..19; the survivors 2, 20 and 21 become 1, 2 and 3.  The
    round that turns 2 into 1 rewrites every occurrence of the text
    [op_2] in the sources of the operators depending on 2, also inside
    [op_20] and [op_21]: the former operator 21 ends with a source that
    calls [op_10] and [op_count_10], which no operator has, while its
    dependency list reads [1; 2]. *)
Theorem delete_one_operator_leaves_dangling_reference :
  consistentb dense_registry = true /\
  merge_sort Z.le (keys dense_registry) = seqZ 1 21 /\
  exists m',
    delete_one_operator 22 1 dense_registry = (Ok tt, m') /\
    merge_sort Z.le (keys m') = [1; 2; 3] /\
    sources m' 3 = Some (3, Some [1; 2],
                          Some "op_3(a, b): return op_1(op_10(a, b), b)",
                          Some "op_count_3(a, b): return op_count_1(a, b) + op_count_10(a, b)") /\
    references "op_" (Some "op_3(a, b): return op_1(op_10(a, b), b)") = [3; 1; 10] /\
    registeredb m' 10 = false /\
    no_danglingb m' = false.
Proof.
  split; [vm_compute; reflexivity|]. split; [vm_compute; reflexivity|].
  eexists. split; [vm_compute; reflexivity|].
  repeat split; vm_compute; reflexivity.
Qed.

(** C2, at a failing input.  A base operator is registered with
    [dependencies = None].  With one in the registry the search for the
    dependents of any operator raises [TypeError] at the membership test,
    before anything is removed. *)
Theorem delete_cascade_raises_on_unset_dependencies (fuel : nat) :
  map (fun o => (OperatorInfo.id o, OperatorInfo.is_base o, OperatorInfo.dependencies o))
      (values plus_and_base_registry) = [(2, Some 2, None); (1, None, Some [])] /\
  delete_one_operator_by_dep (S fuel) 1 plus_and_base_registry
    = (Raise (TypeError "argument of type 'NoneType' is not iterable"),
       plus_and_base_registry) /\
  delete_one_operator (S fuel) 1 plus_and_base_registry
    = (Raise (TypeError "argument of type 'NoneType' is not iterable"),
       plus_and_base_registry).
Proof. repeat split; vm_compute; reflexivity. Qed.

End cascade.
